(** * 3GPP TS 23.032 GAD codec of libosmocore: [src/gsm/gad.c]

    A shallow embedding of the quantisation functions (latitude, longitude,
    uncertainty), of the PDU encoder and decoder and of the string formatter,
    with the properties that the written description of the codec states
    about them.

    C integers are values of [Z]; every conversion the C code performs
    (assignment to a narrower type, return through an unsigned type,
    parameter passing) is written out with [to_uint8], [to_uint32],
    [to_int32] and [to_int64]. *)

From Stdlib Require Import ZArith List Lia Bool String Ascii.
From Stdlib Require DecimalString HexadecimalString.
Import ListNotations.

Local Open Scope Z_scope.

(** ** Fixed-width integers *)

Module CInt.

(** Value of [x] after conversion to an unsigned type of [w] bits. *)
Definition to_unsigned (w : Z) (x : Z) : Z := x mod 2 ^ w.

(** Value of [x] after conversion to a signed two's complement type of [w]
    bits (what gcc and clang do for out-of-range values). *)
Definition to_signed (w : Z) (x : Z) : Z :=
  (x + 2 ^ (w - 1)) mod 2 ^ w - 2 ^ (w - 1).

Definition to_uint8 : Z -> Z := to_unsigned 8.
Definition to_uint32 : Z -> Z := to_unsigned 32.
Definition to_int32 : Z -> Z := to_signed 32.
Definition to_int64 : Z -> Z := to_signed 64.

End CInt.
Import CInt.

(** ** Quantizer: latitude and longitude *)

(** [uint32_t osmo_gad_enc_lat(int32_t lat_deg_1e6)].  The parameter is an
    [int32_t] value.  [sign] is an [int32_t], [x] an [int64_t]; the result
    of [sign | (x & 0x7fffff)] is converted to [uint32_t] on return.  The
    negation wraps for [INT32_MIN], where C leaves it undefined; no property
    below goes there. *)
Definition osmo_gad_enc_lat (lat_deg_1e6 : Z) : Z :=
  let neg := lat_deg_1e6 <? 0 in
  let sign := if neg then Z.shiftl 1 23 else 0 in
  let lat_deg_1e6 := if neg then to_int32 (- lat_deg_1e6) else lat_deg_1e6 in
  let x := lat_deg_1e6 in
  let x := to_int64 (Z.shiftl x 23) in
  let x := to_int64 (x + (Z.shiftl 1 23 - 1)) in
  let x := to_int64 (Z.quot x (90 * 1000000)) in
  to_uint32 (Z.lor sign (Z.land x 0x7fffff)).

(** [uint32_t osmo_gad_dec_lat(int32_t lat)]. *)
Definition osmo_gad_dec_lat (lat : Z) : Z :=
  let neg := negb (Z.land lat 0x800000 =? 0) in
  let sign := if neg then -1 else 1 in
  let lat := if neg then to_int32 (Z.land lat 0x7fffff) else lat in
  let x := lat in
  let x := to_int64 (x * (90 * 1000000)) in
  let x := to_int64 (Z.shiftr x 23) in
  let x := to_int64 (x * sign) in
  to_uint32 x.

(** [uint32_t osmo_gad_enc_lon(int32_t lon_deg_1e6)].  C's [/] truncates
    towards zero: [Z.quot]. *)
Definition osmo_gad_enc_lon (lon_deg_1e6 : Z) : Z :=
  let x := lon_deg_1e6 in
  let x := to_int64 (x * Z.shiftl 1 24) in
  let x := if lon_deg_1e6 >=? 0
           then to_int64 (x + (Z.shiftl 1 24 - 1))
           else to_int64 (x - (Z.shiftl 1 24 - 1)) in
  let x := to_int64 (Z.quot x (360 * 1000000)) in
  to_uint32 (Z.land x 0xffffff).

(** [uint32_t osmo_gad_dec_lon(int32_t lon)].  In [lon |= 0xff000000] the
    constant is an [unsigned int], so [lon] is converted to unsigned, or-ed,
    and converted back to [int32_t] by the assignment. *)
Definition osmo_gad_dec_lon (lon : Z) : Z :=
  let lon := if negb (Z.land lon 0x800000 =? 0)
             then to_int32 (Z.lor (to_uint32 lon) 0xff000000)
             else lon in
  let x := lon in
  let x := to_int64 (x * (360 * 1000000)) in
  let x := to_int64 (Z.quot x (Z.shiftl 1 24)) in
  to_uint32 x.

(** ** Quantizer: uncertainty *)

(** [static uint32_t table_uncertainty_1e3[128]]: r(k) = 10 (1.1^k - 1) in
    millimetres. *)
Definition table_uncertainty_1e3 : list Z :=
  [ 0; 1000; 2100; 3310; 4641; 6105; 7715; 9487; 11435; 13579; 15937; 18531;
    21384; 24522; 27974; 31772; 35949; 40544; 45599; 51159; 57274; 64002;
    71402; 79543; 88497; 98347; 109181; 121099; 134209; 148630; 164494;
    181943; 201137; 222251; 245476; 271024; 299126; 330039; 364043; 401447;
    442592; 487851; 537636; 592400; 652640; 718904; 791795; 871974; 960172;
    1057189; 1163908; 1281299; 1410429; 1552472; 1708719; 1880591; 2069650;
    2277615; 2506377; 2758014; 3034816; 3339298; 3674227; 4042650; 4447915;
    4893707; 5384077; 5923485; 6516834; 7169517; 7887469; 8677216; 9545938;
    10501531; 11552685; 12708953; 13980849; 15379933; 16918927; 18611820;
    20474002; 22522402; 24775642; 27254206; 29980627; 32979690; 36278659;
    39907525; 43899277; 48290205; 53120226; 58433248; 64277573; 70706330;
    77777964; 85556760; 94113436; 103525780; 113879358; 125268293; 137796123;
    151576735; 166735409; 183409950; 201751945; 221928139; 244121953;
    268535149; 295389664; 324929630; 357423593; 393166952; 432484648;
    475734112; 523308524; 575640376; 633205414; 696526955; 766180651;
    842799716; 927080688; 1019789756; 1121769732; 1233947705; 1357343476;
    1493078824; 1642387706; 1806627477 ].

(** [ARRAY_SIZE(table_uncertainty_1e3)]. *)
Definition ARRAY_SIZE {A : Type} (a : list A) : nat := List.length a.

(** [table_uncertainty_1e3[i]]. *)
Definition table_at (i : Z) : Z := nth (Z.to_nat i) table_uncertainty_1e3 0.

(** [uint32_t osmo_gad_dec_unc(uint8_t unc)]. *)
Definition osmo_gad_dec_unc (unc : Z) : Z := table_at (Z.land unc 0x7f).

(** The [for] loop of [osmo_gad_enc_unc], entered with index [unc] and
    [remaining] = [ARRAY_SIZE - unc] iterations left before the guard
    [unc < ARRAY_SIZE] fails.  [unc] is a [uint8_t]: both [unc - 1] on return
    and [unc++] are converted back to 8 bits. *)
Fixpoint enc_unc_from (remaining : nat) (unc mm : Z) : Z :=
  match remaining with
  | O => 127
  | S remaining' =>
      if mm <? table_at unc
      then to_uint8 (unc - 1)
      else enc_unc_from remaining' (to_uint8 (unc + 1)) mm
  end.

(** [uint8_t osmo_gad_enc_unc(uint32_t mm)]. *)
Definition osmo_gad_enc_unc (mm : Z) : Z :=
  enc_unc_from (ARRAY_SIZE table_uncertainty_1e3) 0 mm.

(** ** Data model: [gsm_23_032.h] *)

Definition GAD_TYPE_ELL_POINT : Z := 0.
Definition GAD_TYPE_ELL_POINT_UNC_CIRCLE : Z := 1.
Definition GAD_TYPE_ELL_POINT_UNC_ELLIPSE : Z := 3.
Definition GAD_TYPE_POLYGON : Z := 5.
Definition GAD_TYPE_ELL_POINT_ALT : Z := 8.
Definition GAD_TYPE_ELL_POINT_ALT_UNC_ELL : Z := 9.
Definition GAD_TYPE_ELL_ARC : Z := 10.
Definition GAD_TYPE_HA_ELL_POINT_UNC_ELLIPSE : Z := 11.
Definition GAD_TYPE_HA_ELL_POINT_ALT_UNC_ELL : Z := 12.

(** [struct gad_ell_point]. *)
Record gad_ell_point := mk_ell_point {
  ep_lat : Z;  (* int32_t lat *)
  ep_lon : Z   (* int32_t lon *)
}.

(** [struct gad_ell_point_unc_circle]. *)
Record gad_ell_point_unc_circle := mk_ell_point_unc_circle {
  lat : Z;  (* int32_t *)
  lon : Z;  (* int32_t *)
  unc : Z   (* uint32_t *)
}.

(** [struct gad_pdu]: the discriminator and the anonymous union.  The union
    is kept as its storage, a sequence of 32-bit words, because the members
    overlap: [ell_point] and [ell_point_unc_circle] both start with [lat] at
    word 0 and [lon] at word 1, and [ell_point_unc_circle.unc] is word 2.
    The largest member, [struct gad_polygon], takes 124 bytes. *)
Record gad_pdu := mk_gad_pdu {
  type : Z;
  u : list Z
}.

Definition GAD_UNION_WORDS : nat := 31.

(** [(struct gad_pdu){}]. *)
Definition gad_pdu_zero : gad_pdu :=
  {| type := 0; u := repeat 0 GAD_UNION_WORDS |}.

Definition word (i : nat) (m : list Z) : Z := nth i m 0.

Fixpoint set_word (i : nat) (v : Z) (m : list Z) : list Z :=
  match m, i with
  | [], _ => []
  | _ :: m', O => v :: m'
  | w :: m', S i' => w :: set_word i' v m'
  end.

(** [gad->ell_point], read. *)
Definition ell_point (gad : gad_pdu) : gad_ell_point :=
  {| ep_lat := to_int32 (word 0 (u gad));
     ep_lon := to_int32 (word 1 (u gad)) |}.

(** [gad->ell_point_unc_circle], read. *)
Definition ell_point_unc_circle (gad : gad_pdu) : gad_ell_point_unc_circle :=
  {| lat := to_int32 (word 0 (u gad));
     lon := to_int32 (word 1 (u gad));
     unc := word 2 (u gad) |}.

(** [gad->ell_point_unc_circle], written through the pointer
    [&gad->ell_point_unc_circle]. *)
Definition set_ell_point_unc_circle
  (gad : gad_pdu) (v : gad_ell_point_unc_circle) : gad_pdu :=
  {| type := type gad;
     u := set_word 2 (to_uint32 (unc v))
            (set_word 1 (to_uint32 (lon v))
               (set_word 0 (to_uint32 (lat v)) (u gad))) |}.

(** ** Variant codec: encoding *)

(** Modelled from the spec: [struct msgb] with [msgb_put] and [msgb_put_u8]
    ([osmocom/core/msgb.h], not under src/), "an append-only growable byte
    buffer".  A message is the sequence of its bytes from [data] up to
    [tail]; the room left behind [tail] is not represented. *)
Definition msgb := list Z.

Definition msgb_tail (msg : msgb) : Z := Z.of_nat (List.length msg).

Definition msgb_put_u8 (msg : msgb) (word8 : Z) : msgb :=
  msg ++ [to_uint8 word8].

(** Modelled from the spec: [osmo_store32be_ext(x, p, n)]
    ([osmocom/core/bit32gen.h], not under src/) stores the low [n] bytes of
    [x] at [p], the most significant one first ("big-endian 24-bit"). *)
Fixpoint osmo_store32be_ext (x : Z) (n : nat) : list Z :=
  match n with
  | O => []
  | S n' => Z.land (Z.shiftr x (8 * Z.of_nat n')) 0xff :: osmo_store32be_ext x n'
  end.

(** Modelled from the spec: [osmo_load32be_ext_2(p, n)]
    ([osmocom/core/bit32gen.h], not under src/) reads [n] bytes at [p] as a
    big-endian number ("big-endian 24-bit load"). *)
Fixpoint osmo_load32be_ext_2 (p : list Z) (n : nat) : Z :=
  match n with
  | O => 0
  | S n' =>
      Z.lor (Z.shiftl (nth 0 p 0) (8 * Z.of_nat n'))
            (osmo_load32be_ext_2 (tl p) n')
  end.

(** [static void put_u24be(struct msgb *msg, uint32_t val)]. *)
Definition put_u24be (msg : msgb) (val : Z) : msgb :=
  msg ++ osmo_store32be_ext val 3.

(** [static int osmo_gad_enc_ell_point_unc_circle(msg, v)]: the number of
    bytes appended and the message after the call. *)
Definition osmo_gad_enc_ell_point_unc_circle
  (msg : msgb) (v : gad_ell_point_unc_circle) : Z * msgb :=
  let old_tail := msgb_tail msg in
  let msg := msgb_put_u8 msg (Z.shiftl GAD_TYPE_ELL_POINT_UNC_CIRCLE 4) in
  let msg := put_u24be msg (osmo_gad_enc_lat (lat v)) in
  let msg := put_u24be msg (osmo_gad_enc_lon (lon v)) in
  let msg := msgb_put_u8 msg (osmo_gad_enc_unc (unc v)) in
  (msgb_tail msg - old_tail, msg).

(** [<errno.h>] of Linux. *)
Definition EINVAL : Z := 22.
Definition ENOTSUP : Z := 95.

(** [int osmo_gad_enc(struct msgb *msg, const struct gad_pdu *gad)]. *)
Definition osmo_gad_enc (msg : msgb) (gad : gad_pdu) : Z * msgb :=
  if type gad =? GAD_TYPE_ELL_POINT_UNC_CIRCLE
  then osmo_gad_enc_ell_point_unc_circle msg (ell_point_unc_circle gad)
  else (- ENOTSUP, msg).

(** ** Error reporter *)

(** [const struct value_string osmo_gad_type_names[]]. *)
Definition osmo_gad_type_names : list (Z * string) :=
  [ (GAD_TYPE_ELL_POINT, "Ellipsoid-point");
    (GAD_TYPE_ELL_POINT_UNC_CIRCLE, "Ellipsoid-point-with-uncertainty-circle");
    (GAD_TYPE_ELL_POINT_UNC_ELLIPSE, "Ellipsoid-point-with-uncertainty-ellipse");
    (GAD_TYPE_POLYGON, "Polygon");
    (GAD_TYPE_ELL_POINT_ALT, "Ellipsoid-point-with-altitude");
    (GAD_TYPE_ELL_POINT_ALT_UNC_ELL,
     "Ellipsoid-point-with-altitude-and-uncertainty-ellipsoid");
    (GAD_TYPE_ELL_ARC, "Ellipsoid-arc");
    (GAD_TYPE_HA_ELL_POINT_UNC_ELLIPSE,
     "High-accuracy-ellipsoid-point-with-uncertainty-ellipse");
    (GAD_TYPE_HA_ELL_POINT_ALT_UNC_ELL,
     "High-accuracy-ellipsoid-point-with-altitude-and-uncertainty-ellipsoid")
  ]%string.

(** [struct osmo_gad_err]; the member [type] is [err_type] here, the name
    [type] being taken by [struct gad_pdu]. *)
Record osmo_gad_err := mk_gad_err {
  rc : Z;
  err_type : Z;
  logmsg : string
}.

(** printf's [%u] and [%x]. *)
Definition fmt_u (n : Z) : string :=
  DecimalString.NilZero.string_of_uint (N.to_uint (Z.to_N n)).
Definition fmt_x (n : Z) : string :=
  HexadecimalString.NilZero.string_of_uint (N.to_hex_uint (Z.to_N n)).

(** What a decoding function hands back: the return code, the PDU as it is
    left in the caller's memory, and the record left in [*err]: [None] for
    [NULL], which is also all a caller passing [err == NULL] gets. *)
Record dec_result := mk_dec_result {
  dec_rc : Z;
  dec_gad : gad_pdu;
  dec_err : option osmo_gad_err
}.

(** [struct osmo_strbuf]; [sb_buf] is the text stored in the buffer so far
    (without the terminating NUL), [sb_pos] the offset of [pos] in it. *)
Record osmo_strbuf := mk_strbuf {
  sb_buf : string;
  sb_len : Z;
  sb_pos : Z;
  sb_chars_needed : Z
}.

(** The state of a buffer of [buflen] bytes into which [text] was printed
    and went in whole; [osmo_gad_to_str_buf] starts from
    [strbuf_holding buflen ""]. *)
Definition strbuf_holding (buflen : Z) (text : string) : osmo_strbuf :=
  {| sb_buf := text; sb_len := buflen;
     sb_pos := Z.of_nat (String.length text);
     sb_chars_needed := Z.of_nat (String.length text) |}.

Section Collaborators.

(** Library functions of the repository that are not under src/ and that
    the description of the codec leaves open. *)

(** The text [get_value_string] makes up for a value that is in no entry of
    the table. *)
Variable unknown_value_string : Z -> string.

(** The decimal rendering of micro units by
    [osmo_micros_to_float_str_buf]. *)
Variable osmo_micros_to_float_str : Z -> string.

(** Modelled from the spec: [get_value_string] ([osmocom/core/utils.h], not
    under src/), "a static discriminator -> name lookup used only for
    diagnostics": the name of the first entry whose value is [val]. *)
Fixpoint get_value_string (vs : list (Z * string)) (val : Z) : string :=
  match vs with
  | [] => unknown_value_string val
  | (value, str) :: vs' =>
      if value =? val then str else get_value_string vs' val
  end.

(** [osmo_gad_type_name] of [gad.h]. *)
Definition osmo_gad_type_name (val : Z) : string :=
  get_value_string osmo_gad_type_names val.

(** The macro [DEC_ERR(RC, TYPE, fmt, args...)], with [detail] the text
    that [fmt] and its arguments produce: it fills [*err] when [err] is not
    [NULL], and returns [RC]. *)
Definition DEC_ERR (err : bool) (RC TYPE : Z) (detail : string)
  : Z * option osmo_gad_err :=
  (RC,
   if err
   then Some {| rc := RC;
                err_type := TYPE;
                logmsg := ("Error decoding GAD"
                           ++ (if TYPE >=? 0 then " " else "")
                           ++ (if TYPE >=? 0 then osmo_gad_type_name TYPE else "")
                           ++ ": " ++ detail)%string |}
   else None).

(** ** Variant codec: decoding *)

(** [static int osmo_gad_dec_ell_point_unc_circle(v, err, err_ctx, data, len)]:
    the struct [*v] as the function leaves it, the return code and [*err].
    [err] tells whether the caller passed a place for the error record. *)
Definition osmo_gad_dec_ell_point_unc_circle
  (v : gad_ell_point_unc_circle) (err : bool) (data : list Z) (len : Z)
  : gad_ell_point_unc_circle * (Z * option osmo_gad_err) :=
  if negb (len =? 8)
  then (v, DEC_ERR err (- EINVAL) (-1)
             ("Expecting length of 8 bytes, got " ++ fmt_u len)%string)
  else
    let val := osmo_load32be_ext_2 (skipn 1 data) 3 in
    let v := {| lat := to_int32 (osmo_gad_dec_lat (to_int32 val));
                lon := lon v; unc := unc v |} in
    let val := osmo_load32be_ext_2 (skipn 4 data) 3 in
    let v := {| lat := lat v;
                lon := to_int32 (osmo_gad_dec_lon (to_int32 val));
                unc := unc v |} in
    let unc_code := nth 7 data 0 in
    if negb (Z.land unc_code 0x80 =? 0)
    then (v, DEC_ERR err (- EINVAL) (-1)
               ("Bit 8 of Uncertainty code should be zero (unc = 0x"
                ++ fmt_x unc_code ++ ")")%string)
    else ({| lat := lat v; lon := lon v; unc := osmo_gad_dec_unc unc_code |},
          (0, None)).

(** [int osmo_gad_dec(gad, err, err_ctx, data, len)].  [gad] is the content
    of the caller's PDU on entry. *)
Definition osmo_gad_dec
  (gad : gad_pdu) (err : bool) (data : list Z) (len : Z) : dec_result :=
  if len <? 1
  then let '(ret, e) := DEC_ERR err (- EINVAL) (-1) "zero length" in
       {| dec_rc := ret; dec_gad := gad; dec_err := e |}
  else
    let gad := gad_pdu_zero in
    let gad := {| type := Z.shiftr (nth 0 data 0) 4; u := u gad |} in
    if type gad =? GAD_TYPE_ELL_POINT_UNC_CIRCLE
    then
      let '(v, (ret, e)) :=
        osmo_gad_dec_ell_point_unc_circle
          (ell_point_unc_circle gad) err data len in
      let gad := set_ell_point_unc_circle gad v in
      let e := option_map
                 (fun r => {| rc := rc r; err_type := type gad;
                              logmsg := logmsg r |}) e in
      {| dec_rc := ret; dec_gad := gad; dec_err := e |}
    else
      let '(ret, e) :=
        DEC_ERR err (- ENOTSUP) (type gad) "unsupported GAD type" in
      {| dec_rc := ret; dec_gad := gad; dec_err := e |}.

(** ** String formatter *)

(** Modelled from the spec: [OSMO_STRBUF_APPEND] and [OSMO_STRBUF_PRINTF]
    ([osmocom/core/utils.h], not under src/) with a function that behaves
    "like snprintf()": of a text of [l] characters as many as fit before the
    terminating NUL are stored, [pos] advances by [l] or to the end of the
    buffer, and [chars_needed] grows by [l]. *)
Definition OSMO_STRBUF_APPEND (sb : osmo_strbuf) (text : string) : osmo_strbuf :=
  let sb_remain := sb_len sb - sb_pos sb in
  let sb_l := Z.of_nat (String.length text) in
  {| sb_buf := (sb_buf sb ++ substring 0 (Z.to_nat (sb_remain - 1)) text)%string;
     sb_len := sb_len sb;
     sb_pos := if sb_remain <? sb_l then sb_len sb else sb_pos sb + sb_l;
     sb_chars_needed := sb_chars_needed sb + sb_l |}.

Definition OSMO_STRBUF_PRINTF := OSMO_STRBUF_APPEND.

(** [case GAD_TYPE_ELL_POINT:] of [osmo_gad_to_str_buf], up to the next
    [case] label. *)
Definition to_str_case_ell_point (sb : osmo_strbuf) (gad : gad_pdu) : osmo_strbuf :=
  let sb := OSMO_STRBUF_PRINTF sb "lat=" in
  let sb := OSMO_STRBUF_APPEND sb (osmo_micros_to_float_str (ep_lat (ell_point gad))) in
  let sb := OSMO_STRBUF_PRINTF sb ",lon=" in
  OSMO_STRBUF_APPEND sb (osmo_micros_to_float_str (ep_lon (ell_point gad))).

(** [case GAD_TYPE_ELL_POINT_UNC_CIRCLE:], up to its [break]. *)
Definition to_str_case_ell_point_unc_circle (sb : osmo_strbuf) (gad : gad_pdu)
  : osmo_strbuf :=
  let sb := OSMO_STRBUF_PRINTF sb "lat=" in
  let sb := OSMO_STRBUF_APPEND sb
              (osmo_micros_to_float_str (lat (ell_point_unc_circle gad))) in
  let sb := OSMO_STRBUF_PRINTF sb ",lon=" in
  let sb := OSMO_STRBUF_APPEND sb
              (osmo_micros_to_float_str (lon (ell_point_unc_circle gad))) in
  OSMO_STRBUF_PRINTF sb
    (",unc=" ++ fmt_u (unc (ell_point_unc_circle gad)) ++ "mm")%string.

(** [int osmo_gad_to_str_buf(char *buf, size_t buflen, const struct gad_pdu *gad)]:
    the value returned and the text left in [buf].  [None] is the [NULL]
    PDU.  The [case GAD_TYPE_ELL_POINT] has no [break], so control runs on
    into the statements of the next label. *)
Definition osmo_gad_to_str_buf (buflen : Z) (gad : option gad_pdu) : Z * string :=
  let sb := {| sb_buf := ""; sb_len := buflen; sb_pos := 0;
               sb_chars_needed := 0 |} in
  match gad with
  | None =>
      let sb := OSMO_STRBUF_PRINTF sb "null" in
      (sb_chars_needed sb, sb_buf sb)
  | Some gad =>
      let sb := OSMO_STRBUF_PRINTF sb (osmo_gad_type_name (type gad) ++ "{")%string in
      let sb :=
        if type gad =? GAD_TYPE_ELL_POINT
        then to_str_case_ell_point_unc_circle (to_str_case_ell_point sb gad) gad
        else if type gad =? GAD_TYPE_ELL_POINT_UNC_CIRCLE
        then to_str_case_ell_point_unc_circle sb gad
        else OSMO_STRBUF_PRINTF sb "to-str-not-implemented" in
      let sb := OSMO_STRBUF_PRINTF sb "}" in
      (sb_chars_needed sb, sb_buf sb)
  end.

End Collaborators.

(** ** Devices of the proofs *)

(** A byte of a buffer. *)
Definition is_byte (b : Z) : Prop := 0 <= b <= 255.

(** The five ways through [osmo_gad_dec], by the tests it makes on the
    length, on the type nibble of byte 0 and on the top bit of byte 7. *)
Inductive dec_path (data : list Z) (len : Z) : Prop :=
| path_empty : len < 1 -> dec_path data len
| path_unsupported :
    1 <= len -> Z.shiftr (nth 0 data 0) 4 <> GAD_TYPE_ELL_POINT_UNC_CIRCLE ->
    dec_path data len
| path_bad_length :
    1 <= len -> len <> 8 ->
    Z.shiftr (nth 0 data 0) 4 = GAD_TYPE_ELL_POINT_UNC_CIRCLE ->
    dec_path data len
| path_reserved :
    len = 8 -> Z.shiftr (nth 0 data 0) 4 = GAD_TYPE_ELL_POINT_UNC_CIRCLE ->
    Z.testbit (nth 7 data 0) 7 = true -> dec_path data len
| path_ok :
    len = 8 -> Z.shiftr (nth 0 data 0) 4 = GAD_TYPE_ELL_POINT_UNC_CIRCLE ->
    Z.testbit (nth 7 data 0) 7 = false -> dec_path data len.

(** The state of a buffer of [buflen] bytes after [text] was printed into
    it, whole or not: the buffer holds what fits before the terminating
    NUL, [pos] stands behind the text or at the end of the buffer, and
    [chars_needed] counts all of it. *)
Definition strbuf_after (buflen : Z) (text : string) : osmo_strbuf :=
  {| sb_buf := substring 0 (Z.to_nat (buflen - 1)) text;
     sb_len := buflen;
     sb_pos := if Z.of_nat (String.length text) <? buflen
               then Z.of_nat (String.length text) else buflen;
     sb_chars_needed := Z.of_nat (String.length text) |}.

Section Pieces.

Variable unknown_value_string : Z -> string.
Variable osmo_micros_to_float_str : Z -> string.

(** The texts that [osmo_gad_to_str_buf] appends, in the order of its
    [OSMO_STRBUF_PRINTF] and [OSMO_STRBUF_APPEND] statements. *)
Definition to_str_pieces (gad : option gad_pdu) : list string :=
  match gad with
  | None => ["null"%string]
  | Some gad =>
      let circle :=
        [ "lat="%string;
          osmo_micros_to_float_str (lat (ell_point_unc_circle gad));
          ",lon="%string;
          osmo_micros_to_float_str (lon (ell_point_unc_circle gad));
          (",unc=" ++ fmt_u (unc (ell_point_unc_circle gad)) ++ "mm")%string ] in
      [ (osmo_gad_type_name unknown_value_string (type gad) ++ "{")%string ]
      ++ (if type gad =? GAD_TYPE_ELL_POINT
          then [ "lat="%string;
                 osmo_micros_to_float_str (ep_lat (ell_point gad));
                 ",lon="%string;
                 osmo_micros_to_float_str (ep_lon (ell_point gad)) ] ++ circle
          else if type gad =? GAD_TYPE_ELL_POINT_UNC_CIRCLE
          then circle
          else [ "to-str-not-implemented"%string ])
      ++ [ "}"%string ]
  end.

End Pieces.

(** * Properties *)

(** ** Conversions that leave the value unchanged *)

Module CIntFacts.

Lemma to_uint8_id x : 0 <= x < 256 -> to_uint8 x = x.
Proof. intros H. unfold to_uint8, to_unsigned. apply Z.mod_small. lia. Qed.

Lemma to_uint32_id x : 0 <= x < 4294967296 -> to_uint32 x = x.
Proof. intros H. unfold to_uint32, to_unsigned. apply Z.mod_small. lia. Qed.

Lemma to_uint32_neg x : - 4294967296 <= x < 0 -> to_uint32 x = x + 4294967296.
Proof.
  intros H. unfold to_uint32, to_unsigned.
  change (2 ^ 32) with 4294967296.
  symmetry. apply Z.mod_unique with (q := -1); lia.
Qed.

Lemma to_int32_id x : - 2147483648 <= x < 2147483648 -> to_int32 x = x.
Proof.
  intros H. unfold to_int32, to_signed.
  change (2 ^ (32 - 1)) with 2147483648. change (2 ^ 32) with 4294967296.
  rewrite Z.mod_small; lia.
Qed.

Lemma to_int32_high x :
  2147483648 <= x < 4294967296 -> to_int32 x = x - 4294967296.
Proof.
  intros H. unfold to_int32, to_signed.
  change (2 ^ (32 - 1)) with 2147483648. change (2 ^ 32) with 4294967296.
  assert (E : (x + 2147483648) mod 4294967296 = x - 2147483648).
  { symmetry. apply Z.mod_unique with (q := 1); lia. }
  rewrite E. lia.
Qed.

Lemma to_int64_id x :
  - 9223372036854775808 <= x < 9223372036854775808 -> to_int64 x = x.
Proof.
  intros H. unfold to_int64, to_signed.
  change (2 ^ (64 - 1)) with 9223372036854775808.
  change (2 ^ 64) with 18446744073709551616.
  rewrite Z.mod_small; lia.
Qed.

Lemma to_uint32_range x : 0 <= to_uint32 x < 4294967296.
Proof.
  unfold to_uint32, to_unsigned. change (2 ^ 32) with 4294967296.
  apply Z.mod_pos_bound. lia.
Qed.

Lemma to_uint8_range x : 0 <= to_uint8 x < 256.
Proof.
  unfold to_uint8, to_unsigned. change (2 ^ 8) with 256.
  apply Z.mod_pos_bound. lia.
Qed.

Lemma to_int32_range x : - 2147483648 <= to_int32 x < 2147483648.
Proof.
  unfold to_int32, to_signed.
  change (2 ^ (32 - 1)) with 2147483648. change (2 ^ 32) with 4294967296.
  pose proof (Z.mod_pos_bound (x + 2147483648) 4294967296). lia.
Qed.

(** Storing an [int32_t] in a 32-bit word and reading it back. *)
Lemma to_int32_to_uint32 x : to_int32 (to_uint32 x) = to_int32 x.
Proof.
  unfold to_int32, to_uint32, to_signed, to_unsigned.
  change (2 ^ (32 - 1)) with 2147483648. change (2 ^ 32) with 4294967296.
  now rewrite Z.add_mod_idemp_l by lia.
Qed.

End CIntFacts.
Import CIntFacts.

(** ** Bit masks on bounded values *)

Section Masks.

(** A single-bit mask selects that bit. *)
Lemma land_pow2 (c n : Z) :
  0 <= n -> Z.land c (2 ^ n) = if Z.testbit c n then 2 ^ n else 0.
Proof.
  intros Hn. apply Z.bits_inj'. intros m Hm.
  rewrite Z.land_spec, Z.pow2_bits_eqb by assumption.
  destruct (Z.eqb_spec n m) as [->|Hne].
  - destruct (Z.testbit c m) eqn:E; simpl.
    + rewrite Z.pow2_bits_true; auto.
    + now rewrite Z.bits_0.
  - rewrite andb_false_r.
    destruct (Z.testbit c n).
    + rewrite Z.pow2_bits_false; auto.
    + now rewrite Z.bits_0.
Qed.

(** Bit [n] of a value below [2^(n+1)] tells on which side of [2^n] it is. *)
Lemma testbit_top (c n : Z) :
  0 <= n -> 0 <= c < 2 ^ (n + 1) -> Z.testbit c n = (2 ^ n <=? c).
Proof.
  intros Hn Hc.
  rewrite Z.pow_add_r, Z.pow_1_r in Hc by lia.
  assert (Hp : 0 < 2 ^ n) by (apply Z.pow_pos_nonneg; lia).
  rewrite Z.testbit_eqb by assumption.
  destruct (Z.leb_spec (2 ^ n) c) as [Hge|Hlt].
  - assert (E : c / 2 ^ n = 1).
    { symmetry. apply Z.div_unique with (r := c - 2 ^ n); lia. }
    now rewrite E.
  - rewrite Z.div_small by lia. reflexivity.
Qed.

(** Values below [2^n] share no bit with multiples of [2^n]. *)
Lemma land_low_high (c k n : Z) :
  0 <= n -> 0 <= c < 2 ^ n -> Z.land c (k * 2 ^ n) = 0.
Proof.
  intros Hn Hc. apply Z.bits_inj'. intros m Hm.
  rewrite Z.land_spec, Z.bits_0.
  destruct (Z.ltb_spec m n) as [Hlt|Hge].
  - rewrite Z.mul_pow2_bits_low by lia. apply andb_false_r.
  - assert (E : Z.testbit c m = false).
    { destruct (Z.eq_dec c 0) as [->|Hz]; [apply Z.bits_0|].
      apply Z.bits_above_log2; [lia|].
      apply Z.lt_le_trans with n; [|assumption].
      apply Z.log2_lt_pow2; lia. }
    now rewrite E.
Qed.

Lemma lor_low_high (c k n : Z) :
  0 <= n -> 0 <= c < 2 ^ n -> Z.lor c (k * 2 ^ n) = c + k * 2 ^ n.
Proof.
  intros Hn Hc.
  rewrite <- Z.lxor_lor by (apply land_low_high; assumption).
  symmetry. apply Z.add_nocarry_lxor. apply land_low_high; assumption.
Qed.

End Masks.

(** The masks of the codec. *)

Lemma land_0x800000 c :
  0 <= c < 16777216 -> Z.land c 0x800000 = if 8388608 <=? c then 8388608 else 0.
Proof.
  intros Hc. change 0x800000 with (2 ^ 23).
  rewrite land_pow2 by lia.
  rewrite (testbit_top c 23) by (change (2 ^ (23 + 1)) with 16777216; lia).
  reflexivity.
Qed.

Lemma land_0x7fffff x : Z.land x 0x7fffff = x mod 8388608.
Proof. change 0x7fffff with (Z.ones 23). now rewrite Z.land_ones by lia. Qed.

Lemma land_0xffffff x : Z.land x 0xffffff = x mod 16777216.
Proof. change 0xffffff with (Z.ones 24). now rewrite Z.land_ones by lia. Qed.

(** Linear arithmetic with the divisions by constants turned into their
    defining inequalities. *)
Ltac bounds := try Z.to_euclidean_division_equations; lia.

(** Drops the conversions whose argument is within the range of the type,
    innermost first. *)
Ltac int_id :=
  repeat match goal with
    | |- context [to_int64 ?x] => rewrite (to_int64_id x) by bounds
    | |- context [to_int32 ?x] => rewrite (to_int32_id x) by bounds
    | |- context [to_uint32 ?x] => rewrite (to_uint32_id x) by bounds
    end.

(** ** Latitude *)

(** The four functions on the halves of their domains, as plain
    arithmetic. *)

Lemma dec_lat_north m :
  0 <= m < 8388608 -> osmo_gad_dec_lat m = m * 90000000 / 8388608.
Proof.
  intros Hm. unfold osmo_gad_dec_lat.
  rewrite land_0x800000 by lia.
  destruct (Z.leb_spec 8388608 m) as [?|_]; [lia|]. cbn [Z.eqb negb].
  change (90 * 1000000) with 90000000.
  rewrite Z.shiftr_div_pow2 by lia. change (2 ^ 23) with 8388608.
  rewrite Z.mul_1_r.
  now int_id.
Qed.

Lemma dec_lat_south m :
  0 <= m < 8388608 ->
  osmo_gad_dec_lat (8388608 + m) = to_uint32 (- (m * 90000000 / 8388608)).
Proof.
  intros Hm. unfold osmo_gad_dec_lat.
  rewrite land_0x800000 by lia.
  destruct (Z.leb_spec 8388608 (8388608 + m)) as [_|?]; [|lia]. cbn [Z.eqb negb].
  rewrite land_0x7fffff.
  replace ((8388608 + m) mod 8388608) with m
    by (apply Z.mod_unique with (q := 1); lia).
  change (90 * 1000000) with 90000000.
  rewrite Z.shiftr_div_pow2 by lia. change (2 ^ 23) with 8388608.
  int_id. f_equal. lia.
Qed.

Lemma enc_lat_north d :
  0 <= d < 2147483648 ->
  osmo_gad_enc_lat d = ((d * 8388608 + 8388607) / 90000000) mod 8388608.
Proof.
  intros Hd. unfold osmo_gad_enc_lat.
  destruct (Z.ltb_spec d 0) as [?|_]; [lia|].
  change (Z.shiftl 1 23 - 1) with 8388607.
  change (Z.shiftl 1 23) with 8388608.
  rewrite Z.shiftl_mul_pow2 by lia. change (2 ^ 23) with 8388608.
  change (90 * 1000000) with 90000000.
  int_id.
  rewrite Z.quot_div_nonneg by lia.
  rewrite Z.lor_0_l, land_0x7fffff.
  apply to_uint32_id. bounds.
Qed.

Lemma enc_lat_south d :
  0 < d < 2147483648 ->
  osmo_gad_enc_lat (- d)
  = 8388608 + ((d * 8388608 + 8388607) / 90000000) mod 8388608.
Proof.
  intros Hd. unfold osmo_gad_enc_lat.
  destruct (Z.ltb_spec (- d) 0) as [_|?]; [|lia].
  rewrite Z.opp_involutive.
  change (Z.shiftl 1 23 - 1) with 8388607.
  change (Z.shiftl 1 23) with 8388608.
  rewrite Z.shiftl_mul_pow2 by lia. change (2 ^ 23) with 8388608.
  change (90 * 1000000) with 90000000.
  int_id.
  rewrite Z.quot_div_nonneg by lia.
  rewrite land_0x7fffff. change 8388608 with (1 * 2 ^ 23) at 1.
  rewrite Z.lor_comm, lor_low_high by (change (2 ^ 23) with 8388608; bounds).
  change (1 * 2 ^ 23) with 8388608.
  rewrite to_uint32_id by bounds. lia.
Qed.

(** Re-quantising a decoded magnitude gives the index back: with
    [d = floor (m * 90e6 / 2^23)], [floor ((d * 2^23 + 2^23 - 1) / 90e6) = m],
    because [2^23 < 90e6]. *)
Lemma lat_requantise m :
  0 <= m ->
  (m * 90000000 / 8388608 * 8388608 + 8388607) / 90000000 = m.
Proof.
  intros Hm. symmetry.
  apply Z.div_unique
    with (r := m * 90000000 / 8388608 * 8388608 + 8388607 - 90000000 * m);
    bounds.
Qed.

(** C1.  Decoding any 24-bit latitude code and encoding the result gives
    the code back, except for [0x800000] (sign bit set, magnitude zero),
    which decodes to 0 and re-encodes to 0.  The conversions to [int32_t]
    are those of the two calls: both functions take an [int32_t] and return
    a [uint32_t]. *)
Theorem lat_dec_enc_roundtrip (lat_code : Z) :
  0 <= lat_code <= 0xFFFFFF ->
  osmo_gad_enc_lat (to_int32 (osmo_gad_dec_lat (to_int32 lat_code)))
  = (if lat_code =? 0x800000 then 0 else lat_code)
  /\ (lat_code = 0x800000 -> osmo_gad_dec_lat (to_int32 lat_code) = 0).
Proof.
  intros Hc. split; [|intros ->; reflexivity].
  rewrite (to_int32_id lat_code) by lia.
  destruct (Z.eqb_spec lat_code 0x800000) as [->|Hne]; [reflexivity|].
  destruct (Z.lt_ge_cases lat_code 8388608) as [Hlo|Hhi].
  - rewrite dec_lat_north by lia.
    rewrite to_int32_id by bounds.
    rewrite enc_lat_north by bounds.
    rewrite lat_requantise by lia. apply Z.mod_small. lia.
  - replace lat_code with (8388608 + (lat_code - 8388608)) at 1 by lia.
    set (m := lat_code - 8388608).
    assert (Hm : 0 < m < 8388608) by (unfold m; lia).
    rewrite dec_lat_south by lia.
    assert (Hd : 10 <= m * 90000000 / 8388608 < 90000000) by bounds.
    rewrite to_uint32_neg by lia.
    rewrite to_int32_high by lia.
    replace (- (m * 90000000 / 8388608) + 4294967296 - 4294967296)
      with (- (m * 90000000 / 8388608)) by lia.
    rewrite enc_lat_south by lia.
    rewrite lat_requantise by lia. rewrite Z.mod_small by lia.
    unfold m. lia.
Qed.

(** ** Longitude *)

Lemma dec_lon_east s :
  0 <= s < 8388608 -> osmo_gad_dec_lon s = s * 360000000 / 16777216.
Proof.
  intros Hs. unfold osmo_gad_dec_lon.
  rewrite land_0x800000 by lia.
  destruct (Z.leb_spec 8388608 s) as [?|_]; [lia|]. cbn [Z.eqb negb].
  change (360 * 1000000) with 360000000.
  change (Z.shiftl 1 24) with 16777216.
  int_id. now rewrite Z.quot_div_nonneg by lia.
Qed.

Lemma dec_lon_west m :
  0 < m <= 8388608 ->
  osmo_gad_dec_lon (16777216 - m)
  = to_uint32 (- (m * 360000000 / 16777216)).
Proof.
  intros Hm. unfold osmo_gad_dec_lon.
  rewrite land_0x800000 by lia.
  destruct (Z.leb_spec 8388608 (16777216 - m)) as [_|?]; [|lia].
  cbn [Z.eqb negb].
  rewrite (to_uint32_id (16777216 - m)) by lia.
  change 0xff000000 with (255 * 2 ^ 24).
  rewrite lor_low_high by (change (2 ^ 24) with 16777216; lia).
  change (255 * 2 ^ 24) with 4278190080.
  rewrite to_int32_high by lia.
  replace (16777216 - m + 4278190080 - 4294967296) with (- m) by lia.
  change (360 * 1000000) with 360000000.
  change (Z.shiftl 1 24) with 16777216.
  rewrite (to_int64_id (- m * 360000000)) by lia.
  rewrite Z.mul_opp_l, Z.quot_opp_l by lia.
  rewrite Z.quot_div_nonneg by lia.
  int_id. reflexivity.
Qed.

Lemma enc_lon_east d :
  0 <= d < 2147483648 ->
  osmo_gad_enc_lon d = ((d * 16777216 + 16777215) / 360000000) mod 16777216.
Proof.
  intros Hd. unfold osmo_gad_enc_lon.
  destruct (Z.geb_spec d 0) as [_|?]; [|lia].
  change (Z.shiftl 1 24 - 1) with 16777215.
  change (Z.shiftl 1 24) with 16777216.
  change (360 * 1000000) with 360000000.
  int_id. rewrite Z.quot_div_nonneg by lia.
  rewrite land_0xffffff.
  apply to_uint32_id. bounds.
Qed.

Lemma enc_lon_west d :
  0 < d <= 2147483648 ->
  osmo_gad_enc_lon (- d)
  = (- ((d * 16777216 + 16777215) / 360000000)) mod 16777216.
Proof.
  intros Hd. unfold osmo_gad_enc_lon.
  destruct (Z.geb_spec (- d) 0) as [?|_]; [lia|].
  change (Z.shiftl 1 24 - 1) with 16777215.
  change (Z.shiftl 1 24) with 16777216.
  change (360 * 1000000) with 360000000.
  rewrite (to_int64_id (- d * 16777216)) by lia.
  rewrite (to_int64_id (- d * 16777216 - 16777215)) by lia.
  replace (- d * 16777216 - 16777215) with (- (d * 16777216 + 16777215))
    by lia.
  rewrite Z.quot_opp_l by lia.
  rewrite Z.quot_div_nonneg by lia.
  int_id. rewrite land_0xffffff.
  apply to_uint32_id. bounds.
Qed.

(** The longitude counterpart of [lat_requantise]: [2^24 < 360e6]. *)
Lemma lon_requantise m :
  0 <= m ->
  (m * 360000000 / 16777216 * 16777216 + 16777215) / 360000000 = m.
Proof.
  intros Hm. symmetry.
  apply Z.div_unique
    with (r := m * 360000000 / 16777216 * 16777216 + 16777215 - 360000000 * m);
    bounds.
Qed.

(** C2.  Decoding any 24-bit longitude code and encoding the result gives
    the code back; no code is special. *)
Theorem lon_dec_enc_roundtrip (lon_code : Z) :
  0 <= lon_code <= 0xFFFFFF ->
  osmo_gad_enc_lon (to_int32 (osmo_gad_dec_lon (to_int32 lon_code))) = lon_code.
Proof.
  intros Hc.
  rewrite (to_int32_id lon_code) by lia.
  destruct (Z.lt_ge_cases lon_code 8388608) as [Hlo|Hhi].
  - rewrite dec_lon_east by lia.
    rewrite to_int32_id by bounds.
    rewrite enc_lon_east by bounds.
    rewrite lon_requantise by lia. apply Z.mod_small. lia.
  - replace lon_code with (16777216 - (16777216 - lon_code)) at 1 by lia.
    set (m := 16777216 - lon_code).
    assert (Hm : 0 < m <= 8388608) by (unfold m; lia).
    rewrite dec_lon_west by lia.
    assert (Hd : 21 <= m * 360000000 / 16777216 <= 180000000) by bounds.
    rewrite to_uint32_neg by lia.
    rewrite to_int32_high by lia.
    replace (- (m * 360000000 / 16777216) + 4294967296 - 4294967296)
      with (- (m * 360000000 / 16777216)) by lia.
    rewrite enc_lon_west by lia.
    rewrite lon_requantise by lia.
    symmetry. apply Z.mod_unique with (q := -1); unfold m; lia.
Qed.

(** C10.  At the ends of the latitude domain: 90000000 encodes to 0, the
    code of latitude 0, and -90000000 encodes to [0x800000], which decodes
    to 0; the magnitude computed for 90000000 is exactly [2^23], and the
    23-bit mask drops that bit. *)
Theorem enc_lat_domain_boundary :
  osmo_gad_enc_lat 90000000 = 0
  /\ osmo_gad_enc_lat 0 = 0
  /\ osmo_gad_enc_lat (- 90000000) = 0x800000
  /\ osmo_gad_dec_lat 0x800000 = 0
  /\ (90000000 * 2 ^ 23 + (2 ^ 23 - 1)) / 90000000 = 2 ^ 23
  /\ Z.land (2 ^ 23) 0x7fffff = 0.
Proof. repeat split; reflexivity. Qed.

(** ** The uncertainty table *)

Lemma table_size : ARRAY_SIZE table_uncertainty_1e3 = 128%nat.
Proof. reflexivity. Qed.

(** A property checked at every index below [n] holds at every such [Z]. *)
Lemma forall_below (n : nat) (P : Z -> bool) :
  forallb (fun i => P (Z.of_nat i)) (seq 0 n) = true ->
  forall i, 0 <= i < Z.of_nat n -> P i = true.
Proof.
  intros Hall i Hi. rewrite forallb_forall in Hall.
  rewrite <- (Z2Nat.id i) by lia. apply Hall, in_seq. lia.
Qed.

(** The table is strictly increasing. *)
Lemma table_step i : 0 <= i < 127 -> table_at i < table_at (i + 1).
Proof.
  intros Hi. apply Z.ltb_lt.
  apply (forall_below 127 (fun i => table_at i <? table_at (i + 1)));
    [vm_compute; reflexivity | assumption].
Qed.

Lemma table_mono_nat (d : nat) :
  forall i, 0 <= i -> i + Z.of_nat d <= 127 ->
  table_at i <= table_at (i + Z.of_nat d).
Proof.
  induction d as [|d IH]; intros i Hi Hd.
  - rewrite Z.add_0_r. lia.
  - specialize (IH i Hi ltac:(lia)).
    pose proof (table_step (i + Z.of_nat d) ltac:(lia)) as Hs.
    replace (i + Z.of_nat (S d)) with (i + Z.of_nat d + 1) by lia. lia.
Qed.

Lemma table_mono i j : 0 <= i <= j -> j <= 127 -> table_at i <= table_at j.
Proof.
  intros Hij Hj.
  replace j with (i + Z.of_nat (Z.to_nat (j - i))) by lia.
  apply table_mono_nat; lia.
Qed.

Lemma table_first : table_at 0 = 0.
Proof. reflexivity. Qed.

(** Invariant of the search loop: entered at index [unc] with every earlier
    entry at most [mm], it returns an index [k] with
    [table[k] <= mm < table[k+1]] (the upper bound when [k] is not the last
    index). *)
Lemma enc_unc_from_spec (mm : Z) :
  0 <= mm ->
  forall (remaining : nat) (unc : Z),
    Z.of_nat remaining + unc = 128 ->
    0 <= unc ->
    (forall j, 0 <= j < unc -> table_at j <= mm) ->
    let k := enc_unc_from remaining unc mm in
    0 <= k <= 127
    /\ table_at k <= mm
    /\ (k < 127 -> mm < table_at (k + 1))
    /\ (table_at 127 <= mm -> k = 127).
Proof.
  intros Hmm.
  induction remaining as [|r IH]; intros unc Hsum Hunc Hprev;
    cbv zeta; cbn [enc_unc_from].
  - repeat split; try lia. apply Hprev. lia.
  - destruct (Z.ltb_spec mm (table_at unc)) as [Hgt|Hle].
    + assert (Hpos : 0 < unc).
      { destruct (Z.eq_dec unc 0) as [->|]; [|lia].
        rewrite table_first in Hgt. lia. }
      rewrite to_uint8_id by lia.
      replace (unc - 1 + 1) with unc by lia.
      repeat split; try lia.
      * apply Hprev. lia.
      * intros Hlast.
        pose proof (table_mono unc 127 ltac:(lia) ltac:(lia)). lia.
    + rewrite to_uint8_id by lia.
      apply IH; try lia.
      intros j Hj. destruct (Z.eq_dec j unc) as [->|]; [assumption|].
      apply Hprev. lia.
Qed.

(** C8.  For every [uint32_t] value [mm], [osmo_gad_enc_unc mm] is the
    largest index [k] of the table with [table[k] <= mm]: it is an index,
    its entry is at most [mm], no index with an entry at most [mm] lies
    above it; below the last index, [k + 1] is the first index whose entry
    exceeds [mm]; it is 127 as soon as [mm] reaches the last entry; and the
    first entry of the table is 0. *)
Theorem enc_unc_largest_index (mm : Z) :
  0 <= mm <= 0xFFFFFFFF ->
  let k := osmo_gad_enc_unc mm in
  0 <= k <= 127
  /\ table_at k <= mm
  /\ (forall j, 0 <= j <= 127 -> table_at j <= mm -> j <= k)
  /\ (k < 127 -> mm < table_at (k + 1))
  /\ (forall j, 0 <= j <= k -> table_at j <= mm)
  /\ (table_at 127 <= mm -> k = 127)
  /\ table_at 0 = 0.
Proof.
  intros Hmm k.
  destruct (enc_unc_from_spec mm ltac:(lia) 128%nat 0) as (Hk & Hle & Hnext & Hlast);
    try lia.
  change (enc_unc_from 128 0 mm) with k in Hk, Hle, Hnext, Hlast.
  refine (conj Hk (conj Hle (conj _ (conj Hnext (conj _ (conj Hlast _)))))).
  3: reflexivity.
  - intros j Hj Hjle.
    destruct (Z.le_gt_cases j k) as [|Hgt]; [assumption|].
    specialize (Hnext ltac:(lia)).
    pose proof (table_mono (k + 1) j ltac:(lia) ltac:(lia)). lia.
  - intros j Hj. pose proof (table_mono j k ltac:(lia) ltac:(lia)). lia.
Qed.

(** C3.  Decoding any uncertainty code of [0 .. 127] and encoding the
    result gives the code back. *)
Theorem unc_dec_enc_roundtrip (code : Z) :
  0 <= code <= 127 -> osmo_gad_enc_unc (osmo_gad_dec_unc code) = code.
Proof.
  intros Hc. apply Z.eqb_eq.
  apply (forall_below 128
           (fun c => osmo_gad_enc_unc (osmo_gad_dec_unc c) =? c));
    [vm_compute; reflexivity | lia].
Qed.

(** ** Encoded frame *)

Lemma enc_unc_from_uint8 (mm : Z) (remaining : nat) :
  forall unc, 0 <= enc_unc_from remaining unc mm < 256.
Proof.
  induction remaining as [|r IH]; intros unc; cbn [enc_unc_from]; [lia|].
  destruct (mm <? table_at unc); [apply to_uint8_range | apply IH].
Qed.

Lemma enc_lat_range x : 0 <= osmo_gad_enc_lat x < 16777216.
Proof.
  unfold osmo_gad_enc_lat. rewrite land_0x7fffff.
  match goal with |- context [?a mod 8388608] => set (m := a mod 8388608) end.
  assert (Hm : 0 <= m < 8388608) by (apply Z.mod_pos_bound; lia).
  change (Z.shiftl 1 23) with (1 * 2 ^ 23).
  destruct (x <? 0).
  - rewrite Z.lor_comm, lor_low_high by (change (2 ^ 23) with 8388608; lia).
    change (1 * 2 ^ 23) with 8388608. rewrite to_uint32_id; lia.
  - rewrite Z.lor_0_l, to_uint32_id; lia.
Qed.

Lemma enc_lon_range x : 0 <= osmo_gad_enc_lon x < 16777216.
Proof.
  unfold osmo_gad_enc_lon. rewrite land_0xffffff.
  match goal with |- context [?a mod 16777216] => set (m := a mod 16777216) end.
  assert (Hm : 0 <= m < 16777216) by (apply Z.mod_pos_bound; lia).
  rewrite to_uint32_id; lia.
Qed.

Lemma land_0xff x : Z.land x 0xff = x mod 256.
Proof. change 0xff with (Z.ones 8). now rewrite Z.land_ones by lia. Qed.

(** The three bytes [put_u24be] appends for a 24-bit value. *)
Lemma store_u24be val :
  0 <= val < 16777216 ->
  osmo_store32be_ext val 3 = [val / 65536; val / 256 mod 256; val mod 256].
Proof.
  intros Hv. cbn [osmo_store32be_ext Z.of_nat Pos.of_succ_nat Pos.succ Z.mul Pos.mul].
  rewrite !land_0xff, !Z.shiftr_div_pow2 by lia.
  change (2 ^ 16) with 65536. change (2 ^ 8) with 256. change (2 ^ 0) with 1.
  rewrite Z.div_1_r. f_equal. apply Z.mod_small. bounds.
Qed.

(** C5.  Whatever the union of an uncertainty-circle PDU holds,
    [osmo_gad_enc] returns 8 and appends the 8 bytes [frame]: the type code
    in the high nibble of byte 0 with a zero low nibble, the encoded
    latitude in bytes 1-3 and the encoded longitude in bytes 4-6, most
    significant byte first, and the uncertainty code in byte 7. *)
Theorem enc_frame_layout (msg : msgb) (m : list Z) :
  let gad := {| type := GAD_TYPE_ELL_POINT_UNC_CIRCLE; u := m |} in
  let v := ell_point_unc_circle gad in
  let N_lat := osmo_gad_enc_lat (lat v) in
  let N_lon := osmo_gad_enc_lon (lon v) in
  let frame :=
    [ Z.lor (Z.shiftl GAD_TYPE_ELL_POINT_UNC_CIRCLE 4) 0;
      N_lat / 65536; N_lat / 256 mod 256; N_lat mod 256;
      N_lon / 65536; N_lon / 256 mod 256; N_lon mod 256;
      osmo_gad_enc_unc (unc v) ] in
  osmo_gad_enc msg gad = (8, msg ++ frame)
  /\ Forall (fun byte => 0 <= byte <= 255) frame
  /\ nth 1 frame 0 * 65536 + nth 2 frame 0 * 256 + nth 3 frame 0 = N_lat
  /\ nth 4 frame 0 * 65536 + nth 5 frame 0 * 256 + nth 6 frame 0 = N_lon.
Proof.
  intros gad v N_lat N_lon frame.
  pose proof (enc_lat_range (lat v)) as Hlat. fold N_lat in Hlat.
  pose proof (enc_lon_range (lon v)) as Hlon. fold N_lon in Hlon.
  pose proof (enc_unc_from_uint8 (unc v) 128 0) as Hunc.
  change (enc_unc_from 128 0 (unc v)) with (osmo_gad_enc_unc (unc v)) in Hunc.
  split; [|split; [|split]].
  - unfold osmo_gad_enc, osmo_gad_enc_ell_point_unc_circle.
    change (type gad =? GAD_TYPE_ELL_POINT_UNC_CIRCLE) with true. cbv iota.
    fold v. fold N_lat. fold N_lon.
    unfold put_u24be, msgb_put_u8, msgb_tail.
    rewrite !store_u24be by assumption.
    rewrite (to_uint8_id (osmo_gad_enc_unc (unc v))) by assumption.
    change (to_uint8 (Z.shiftl GAD_TYPE_ELL_POINT_UNC_CIRCLE 4))
      with (Z.lor (Z.shiftl GAD_TYPE_ELL_POINT_UNC_CIRCLE 4) 0).
    rewrite <- !app_assoc. cbn [app]. fold frame.
    f_equal. rewrite length_app. unfold frame. cbn [List.length]. lia.
  - unfold frame.
    change (Z.lor (Z.shiftl GAD_TYPE_ELL_POINT_UNC_CIRCLE 4) 0) with 16.
    repeat constructor; bounds.
  - unfold frame. cbn [nth]. bounds.
  - unfold frame. cbn [nth]. bounds.
Qed.

(** ** Decoder *)

Section DecoderProperties.

Variable unknown_value_string : Z -> string.

Local Abbreviation osmo_gad_dec := (osmo_gad_dec unknown_value_string).
Local Abbreviation osmo_gad_dec_ell_point_unc_circle :=
  (osmo_gad_dec_ell_point_unc_circle unknown_value_string).
Local Abbreviation osmo_gad_type_name :=
  (osmo_gad_type_name unknown_value_string).
Local Abbreviation DEC_ERR := (DEC_ERR unknown_value_string).

Lemma land_0x80 b : Z.land b 0x80 = if Z.testbit b 7 then 128 else 0.
Proof. change 0x80 with (2 ^ 7). now rewrite land_pow2 by lia. Qed.

(** What [osmo_gad_dec] does on each of its paths. *)
Lemma dec_zero_length gad err data len :
  len < 1 ->
  osmo_gad_dec gad err data len
  = {| dec_rc := - EINVAL; dec_gad := gad;
       dec_err := if err
                  then Some {| rc := - EINVAL; err_type := -1;
                               logmsg := "Error decoding GAD: zero length" |}
                  else None |}.
Proof.
  intros Hlen. unfold osmo_gad_dec.
  destruct (Z.ltb_spec len 1) as [_|?]; [|lia].
  now destruct err.
Qed.

Lemma dec_unsupported gad err data len :
  1 <= len ->
  Z.shiftr (nth 0 data 0) 4 <> GAD_TYPE_ELL_POINT_UNC_CIRCLE ->
  osmo_gad_dec gad err data len
  = {| dec_rc := - ENOTSUP;
       dec_gad := {| type := Z.shiftr (nth 0 data 0) 4; u := u gad_pdu_zero |};
       dec_err := snd (DEC_ERR err (- ENOTSUP)
                         (Z.shiftr (nth 0 data 0) 4) "unsupported GAD type") |}.
Proof.
  intros Hlen Hty. unfold osmo_gad_dec.
  destruct (Z.ltb_spec len 1) as [?|_]; [lia|].
  cbn [type].
  destruct (Z.eqb_spec (Z.shiftr (nth 0 data 0) 4) GAD_TYPE_ELL_POINT_UNC_CIRCLE)
    as [?|_]; [contradiction|].
  reflexivity.
Qed.

Lemma dec_circle gad err data len :
  1 <= len ->
  Z.shiftr (nth 0 data 0) 4 = GAD_TYPE_ELL_POINT_UNC_CIRCLE ->
  let zeroed := {| type := GAD_TYPE_ELL_POINT_UNC_CIRCLE; u := u gad_pdu_zero |} in
  let res := osmo_gad_dec_ell_point_unc_circle
               (ell_point_unc_circle zeroed) err data len in
  osmo_gad_dec gad err data len
  = {| dec_rc := fst (snd res);
       dec_gad := set_ell_point_unc_circle zeroed (fst res);
       dec_err := option_map
                    (fun r => {| rc := rc r;
                                 err_type := GAD_TYPE_ELL_POINT_UNC_CIRCLE;
                                 logmsg := logmsg r |})
                    (snd (snd res)) |}.
Proof.
  intros Hlen Hty zeroed res. unfold osmo_gad_dec.
  destruct (Z.ltb_spec len 1) as [?|_]; [lia|].
  cbn [type]. rewrite Hty.
  change (GAD_TYPE_ELL_POINT_UNC_CIRCLE =? GAD_TYPE_ELL_POINT_UNC_CIRCLE)
    with true. cbv iota.
  fold zeroed. fold res.
  destruct res as [v [ret e]]. reflexivity.
Qed.

(** A decode that fails on the reserved bit of byte 7 has by then written
    [lat] and [lon]; [unc] keeps the zero of the initialisation. *)
Lemma dec_reserved_bit_keeps_lat_lon gad err data :
  Z.shiftr (nth 0 data 0) 4 = GAD_TYPE_ELL_POINT_UNC_CIRCLE ->
  Z.testbit (nth 7 data 0) 7 = true ->
  ell_point_unc_circle (dec_gad (osmo_gad_dec gad err data 8))
  = {| lat := to_int32 (osmo_gad_dec_lat
                          (to_int32 (osmo_load32be_ext_2 (skipn 1 data) 3)));
       lon := to_int32 (osmo_gad_dec_lon
                          (to_int32 (osmo_load32be_ext_2 (skipn 4 data) 3)));
       unc := 0 |}.
Proof.
  intros Hty Hbit. rewrite dec_circle by (assumption || lia).
  unfold osmo_gad_dec_ell_point_unc_circle.
  cbn [Z.eqb Pos.eqb negb]. rewrite land_0x80, Hbit.
  cbn [Z.eqb negb fst snd dec_gad].
  unfold ell_point_unc_circle, set_ell_point_unc_circle.
  cbn [u type gad_pdu_zero GAD_UNION_WORDS repeat set_word word nth lat lon unc].
  rewrite !to_int32_to_uint32.
  rewrite !(to_int32_id (to_int32 _)) by apply to_int32_range.
  reflexivity.
Qed.

(** C4, amended.  For a buffer of length 1 or more, whether decoding
    succeeds or fails, the PDU is zeroed before any field is written: what
    is left in it is what decoding into an all-zero PDU leaves, and every
    word of the union behind the three of [ell_point_unc_circle] is 0.  For
    length 0 the function returns before the initialisation and the PDU
    keeps what it held. *)
Theorem dec_zero_init_unless_empty
  (gad : gad_pdu) (err : bool) (data : list Z) (len : Z) :
  let out := dec_gad (osmo_gad_dec gad err data len) in
  if len <? 1
  then out = gad
  else out = dec_gad (osmo_gad_dec gad_pdu_zero err data len)
       /\ skipn 3 (u out) = repeat 0 (GAD_UNION_WORDS - 3).
Proof.
  intros out. unfold out. clear out.
  destruct (Z.ltb_spec len 1) as [Hlen|Hlen].
  - now rewrite dec_zero_length by assumption.
  - destruct (Z.eq_dec (Z.shiftr (nth 0 data 0) 4) GAD_TYPE_ELL_POINT_UNC_CIRCLE)
      as [Hty|Hty].
    + rewrite !dec_circle by assumption. split; reflexivity.
    + rewrite !dec_unsupported by assumption. split; reflexivity.
Qed.

(** C6.  The failures of [osmo_gad_dec], each with the record it leaves
    in [*err] when the caller asked for one: a zero length is refused as
    "zero length", with no type; a non-empty buffer with the
    uncertainty-circle type nibble and a length other than 8 is refused as
    "Expecting length of 8 bytes"; one of length 8 whose byte 7 has bit 7
    set is refused as "Bit 8 of Uncertainty code should be zero"; and one of
    length 8 whose byte 7 has bit 7 clear decodes: 0 is returned and no
    record is left. *)
Theorem dec_error_classification
  (gad : gad_pdu) (err : bool) (data : list Z) (len : Z) :
  let r := osmo_gad_dec gad err data len in
  let circle := Z.shiftr (nth 0 data 0) 4 = GAD_TYPE_ELL_POINT_UNC_CIRCLE in
  let report (detail : string) :=
    if err
    then Some {| rc := - EINVAL; err_type := GAD_TYPE_ELL_POINT_UNC_CIRCLE;
                 logmsg := ("Error decoding GAD: " ++ detail)%string |}
    else None in
  (len = 0 ->
   dec_rc r = - EINVAL
   /\ dec_err r = if err
                  then Some {| rc := - EINVAL; err_type := -1;
                               logmsg := "Error decoding GAD: zero length" |}
                  else None)
  /\ (1 <= len -> len <> 8 -> circle ->
      dec_rc r = - EINVAL
      /\ dec_err r
         = report ("Expecting length of 8 bytes, got " ++ fmt_u len)%string)
  /\ (len = 8 -> circle -> Z.testbit (nth 7 data 0) 7 = true ->
      dec_rc r = - EINVAL
      /\ dec_err r
         = report ("Bit 8 of Uncertainty code should be zero (unc = 0x"
                   ++ fmt_x (nth 7 data 0) ++ ")")%string)
  /\ (len = 8 -> circle -> Z.testbit (nth 7 data 0) 7 = false ->
      dec_rc r = 0 /\ dec_err r = None
      /\ type (dec_gad r) = GAD_TYPE_ELL_POINT_UNC_CIRCLE).
Proof.
  intros r circle report. unfold r, circle, report. clear r circle report.
  split; [|split; [|split]].
  - intros ->. rewrite dec_zero_length by lia. split; reflexivity.
  - intros Hlen Hne Hty. rewrite dec_circle by assumption.
    unfold osmo_gad_dec_ell_point_unc_circle.
    destruct (Z.eqb_spec len 8) as [?|_]; [contradiction|].
    cbn [negb fst snd]. destruct err; split; reflexivity.
  - intros -> Hty Hbit. rewrite dec_circle by (assumption || lia).
    unfold osmo_gad_dec_ell_point_unc_circle.
    cbn [Z.eqb Pos.eqb negb]. rewrite land_0x80, Hbit.
    cbn [Z.eqb negb fst snd]. destruct err; split; reflexivity.
  - intros -> Hty Hbit. rewrite dec_circle by (assumption || lia).
    unfold osmo_gad_dec_ell_point_unc_circle.
    cbn [Z.eqb Pos.eqb negb]. rewrite land_0x80, Hbit.
    cbn [Z.eqb negb fst snd]. repeat split.
Qed.

(** C7.  For every discriminator [t] other than
    [GAD_TYPE_ELL_POINT_UNC_CIRCLE], and so for the unassigned codes 2, 4, 6
    and 7: [osmo_gad_enc] returns [-ENOTSUP] and leaves the message as it
    was; [osmo_gad_dec] of a non-empty buffer whose type nibble is [t]
    returns [-ENOTSUP], reports [t], and leaves a PDU that holds [t] and
    zeroes: no field of another variant is decoded. *)
Theorem not_supported (t : Z) :
  0 <= t -> t <> GAD_TYPE_ELL_POINT_UNC_CIRCLE ->
  (forall (msg : msgb) (m : list Z),
      osmo_gad_enc msg {| type := t; u := m |} = (- ENOTSUP, msg))
  /\ (forall (gad : gad_pdu) (err : bool) (data : list Z) (len : Z),
         1 <= len -> Z.shiftr (nth 0 data 0) 4 = t ->
         let r := osmo_gad_dec gad err data len in
         dec_rc r = - ENOTSUP
         /\ dec_gad r = {| type := t; u := repeat 0 GAD_UNION_WORDS |}
         /\ dec_err r
            = if err
              then Some {| rc := - ENOTSUP; err_type := t;
                           logmsg := ("Error decoding GAD "
                                      ++ osmo_gad_type_name t
                                      ++ ": unsupported GAD type")%string |}
              else None).
Proof.
  intros Hpos Hne. split.
  - intros msg m. unfold osmo_gad_enc. cbn [type].
    destruct (Z.eqb_spec t GAD_TYPE_ELL_POINT_UNC_CIRCLE); [contradiction|].
    reflexivity.
  - intros gad err data len Hlen Hty r. unfold r. clear r.
    rewrite dec_unsupported by (rewrite ?Hty; assumption).
    rewrite Hty. cbn [dec_rc dec_gad dec_err]. repeat split.
    unfold DEC_ERR. cbn [snd].
    destruct (Z.geb_spec t 0) as [_|?]; [|lia].
    destruct err; reflexivity.
Qed.

End DecoderProperties.

(** ** String formatter *)

Lemma string_length_append (a b : string) :
  String.length (a ++ b) = (String.length a + String.length b)%nat.
Proof. induction a as [|c a IH]; cbn; [reflexivity | now rewrite IH]. Qed.

Lemma string_append_assoc (a b c : string) :
  ((a ++ b) ++ c = a ++ (b ++ c))%string.
Proof. induction a as [|x a IH]; cbn; [reflexivity | now rewrite IH]. Qed.

Lemma substring_whole (s : string) :
  forall n, (String.length s <= n)%nat -> substring 0 n s = s.
Proof.
  induction s as [|c s IH]; intros [|n] Hn; cbn in *; try reflexivity; try lia.
  f_equal. apply IH. lia.
Qed.

Lemma strbuf_append_fits (buflen : Z) (text piece : string) :
  Z.of_nat (String.length (text ++ piece)) < buflen ->
  OSMO_STRBUF_APPEND (strbuf_holding buflen text) piece
  = strbuf_holding buflen (text ++ piece).
Proof.
  intros Hfit. rewrite string_length_append in Hfit.
  unfold OSMO_STRBUF_APPEND, strbuf_holding. cbn [sb_buf sb_len sb_pos sb_chars_needed].
  rewrite substring_whole by lia.
  destruct (Z.ltb_spec (buflen - Z.of_nat (String.length text))
              (Z.of_nat (String.length piece))) as [?|_]; [lia|].
  rewrite string_length_append. f_equal; lia.
Qed.

Lemma strbuf_appends_fit (buflen : Z) (pieces : list string) :
  forall text,
    Z.of_nat (String.length (text ++ String.concat "" pieces)) < buflen ->
    fold_left OSMO_STRBUF_APPEND pieces (strbuf_holding buflen text)
    = strbuf_holding buflen (text ++ String.concat "" pieces).
Proof.
  induction pieces as [|p ps IH]; intros text Hfit.
  - cbn. f_equal. clear. induction text as [|c t IHt]; cbn; congruence.
  - assert (E : (text ++ String.concat "" (p :: ps)
                 = (text ++ p) ++ String.concat "" ps)%string).
    { rewrite string_append_assoc. f_equal.
      destruct ps; cbn [String.concat]; [|reflexivity].
      clear. induction p as [|c t IHt]; cbn; congruence. }
    rewrite E in *. cbn [fold_left].
    rewrite strbuf_append_fits.
    + now apply IH.
    + rewrite string_length_append in Hfit. lia.
Qed.

Section FormatterProperties.

Variable unknown_value_string : Z -> string.
Variable osmo_micros_to_float_str : Z -> string.

Local Abbreviation osmo_gad_to_str_buf :=
  (osmo_gad_to_str_buf unknown_value_string osmo_micros_to_float_str).

(** C9, as the code behaves.  For a PDU of type [GAD_TYPE_ELL_POINT] the
    [case] has no [break]: after [lat] and [lon] of [ell_point] the formatter
    runs on into the next case, prints [lat] and [lon] again and then the
    word behind them in the union as [unc], a field the plain point does not
    have. *)
Theorem to_str_ell_point_prints_unc (buflen : Z) (m : list Z) :
  let gad := {| type := GAD_TYPE_ELL_POINT; u := m |} in
  let text :=
    ("Ellipsoid-point{"
     ++ "lat=" ++ osmo_micros_to_float_str (ep_lat (ell_point gad))
     ++ ",lon=" ++ osmo_micros_to_float_str (ep_lon (ell_point gad))
     ++ "lat=" ++ osmo_micros_to_float_str (ep_lat (ell_point gad))
     ++ ",lon=" ++ osmo_micros_to_float_str (ep_lon (ell_point gad))
     ++ (",unc=" ++ fmt_u (word 2 m) ++ "mm")
     ++ "}")%string in
  Z.of_nat (String.length text) < buflen ->
  osmo_gad_to_str_buf buflen (Some gad) = (Z.of_nat (String.length text), text).
Proof.
  intros gad text Hfit.
  set (pieces :=
         [ "Ellipsoid-point{"; "lat=";
           osmo_micros_to_float_str (ep_lat (ell_point gad)); ",lon=";
           osmo_micros_to_float_str (ep_lon (ell_point gad)); "lat=";
           osmo_micros_to_float_str (ep_lat (ell_point gad)); ",lon=";
           osmo_micros_to_float_str (ep_lon (ell_point gad));
           (",unc=" ++ fmt_u (word 2 m) ++ "mm"); "}" ]%string).
  assert (Hrun : osmo_gad_to_str_buf buflen (Some gad)
                 = (let sb := fold_left OSMO_STRBUF_APPEND pieces
                                (strbuf_holding buflen "") in
                    (sb_chars_needed sb, sb_buf sb))) by reflexivity.
  assert (Htext : String.concat "" pieces = text) by reflexivity.
  rewrite Hrun, strbuf_appends_fit by (cbn [append]; rewrite Htext; exact Hfit).
  cbn [append]. rewrite Htext. reflexivity.
Qed.

End FormatterProperties.

(** * Further properties of the quantizer *)

(** ** Latitude *)

(** An [int32_t] survives the trip through a [uint32_t] return value. *)
Lemma to_int32_of_uint32 y :
  - 2147483648 <= y < 2147483648 -> to_int32 (to_uint32 y) = y.
Proof. intros Hy. rewrite to_int32_to_uint32. now apply to_int32_id. Qed.

(** Decoding a 24-bit latitude code and encoding it again. *)
Lemma lat_code_reencode c :
  0 <= c < 16777216 ->
  osmo_gad_enc_lat (to_int32 (osmo_gad_dec_lat (to_int32 c)))
  = if c =? 0x800000 then 0 else c.
Proof.
  intros Hc. rewrite (to_int32_id c) by lia.
  destruct (Z.eqb_spec c 0x800000) as [->|Hne]; [reflexivity|].
  destruct (Z.lt_ge_cases c 8388608) as [Hlo|Hhi].
  - rewrite dec_lat_north by lia.
    rewrite to_int32_id by bounds.
    rewrite enc_lat_north by bounds.
    rewrite lat_requantise by lia. apply Z.mod_small. lia.
  - replace c with (8388608 + (c - 8388608)) at 1 by lia.
    set (m := c - 8388608).
    assert (Hm : 0 < m < 8388608) by (unfold m; lia).
    rewrite dec_lat_south by lia.
    assert (Hd : 10 <= m * 90000000 / 8388608 < 90000000) by bounds.
    rewrite to_int32_of_uint32 by lia.
    rewrite enc_lat_south by lia.
    rewrite lat_requantise by lia. rewrite Z.mod_small by lia.
    unfold m. lia.
Qed.




(** The range of the decoder on 24-bit codes. *)
Lemma dec_lat_range (lat_code : Z) :
  0 <= lat_code <= 0xFFFFFF ->
  - 90000000 < to_int32 (osmo_gad_dec_lat (to_int32 lat_code)) < 90000000.
Proof.
  intros Hc. rewrite (to_int32_id lat_code) by lia.
  destruct (Z.lt_ge_cases lat_code 8388608) as [Hlo|Hhi].
  - rewrite dec_lat_north by lia. rewrite to_int32_id; bounds.
  - replace lat_code with (8388608 + (lat_code - 8388608)) by lia.
    rewrite dec_lat_south by lia.
    rewrite to_int32_of_uint32; bounds.
Qed.

(** X4.  Every 24-bit code decodes to a latitude strictly inside
    -90 .. 90 degrees: the poles themselves have no code. *)
Theorem dec_lat_in_domain (lat_code : Z) :
  0 <= lat_code <= 0xFFFFFF ->
  - 90000000 < to_int32 (osmo_gad_dec_lat (to_int32 lat_code)) < 90000000.
Proof.
  intros Hc. rewrite (to_int32_id lat_code) by lia.
  destruct (Z.lt_ge_cases lat_code 8388608) as [Hlo|Hhi].
  - rewrite dec_lat_north by lia. rewrite to_int32_id; bounds.
  - replace lat_code with (8388608 + (lat_code - 8388608)) by lia.
    rewrite dec_lat_south by lia.
    rewrite to_int32_of_uint32; bounds.
Qed.

(** X5.  The sign bit mirrors: setting bit 23 of a code negates the
    decoded latitude, and a southern latitude encodes to the code of its
    northern mirror image with bit 23 set. *)
Theorem lat_sign_symmetry (m d : Z) :
  0 <= m < 8388608 -> 0 < d < 2147483648 ->
  to_int32 (osmo_gad_dec_lat (Z.lor m 0x800000))
  = - to_int32 (osmo_gad_dec_lat m)
  /\ osmo_gad_enc_lat (- d) = Z.lor (osmo_gad_enc_lat d) 0x800000.
Proof.
  intros Hm Hd. split.
  - change 0x800000 with (1 * 2 ^ 23).
    rewrite lor_low_high by (change (2 ^ 23) with 8388608; lia).
    change (1 * 2 ^ 23) with 8388608.
    rewrite Z.add_comm, dec_lat_south, dec_lat_north by assumption.
    rewrite to_int32_of_uint32 by bounds.
    rewrite to_int32_id by bounds. reflexivity.
  - pose proof (enc_lat_range d) as Hr.
    rewrite enc_lat_south, enc_lat_north in * by lia.
    set (N := ((d * 8388608 + 8388607) / 90000000) mod 8388608) in *.
    assert (HN : 0 <= N < 8388608) by (apply Z.mod_pos_bound; lia).
    change 0x800000 with (1 * 2 ^ 23).
    rewrite lor_low_high by (change (2 ^ 23) with 8388608; lia).
    change (1 * 2 ^ 23) with 8388608. lia.
Qed.

(** X6.  Encoding keeps the order of the latitudes of either hemisphere:
    a latitude further from the equator never gets the smaller code. *)
Theorem enc_lat_monotone (x y : Z) :
  0 <= x <= y -> y < 90000000 ->
  osmo_gad_enc_lat x <= osmo_gad_enc_lat y
  /\ (0 < x -> osmo_gad_enc_lat (- x) <= osmo_gad_enc_lat (- y)).
Proof.
  intros Hxy Hy.
  assert (Hq : (x * 8388608 + 8388607) / 90000000
               <= (y * 8388608 + 8388607) / 90000000)
    by (apply Z.div_le_mono; lia).
  assert (Hyq : 0 <= (y * 8388608 + 8388607) / 90000000 < 8388608) by bounds.
  assert (Hxq : 0 <= (x * 8388608 + 8388607) / 90000000 < 8388608) by bounds.
  split; [|intros Hx].
  - rewrite !enc_lat_north by lia. rewrite !Z.mod_small by assumption. lia.
  - rewrite !enc_lat_south by lia. rewrite !Z.mod_small by assumption. lia.
Qed.

(** ** Longitude *)

(** Decoding a 24-bit longitude code and encoding it again. *)
Lemma lon_code_reencode c :
  0 <= c < 16777216 ->
  osmo_gad_enc_lon (to_int32 (osmo_gad_dec_lon (to_int32 c))) = c.
Proof.
  intros Hc. rewrite (to_int32_id c) by lia.
  destruct (Z.lt_ge_cases c 8388608) as [Hlo|Hhi].
  - rewrite dec_lon_east by lia.
    rewrite to_int32_id by bounds.
    rewrite enc_lon_east by bounds.
    rewrite lon_requantise by lia. apply Z.mod_small. lia.
  - replace c with (16777216 - (16777216 - c)) at 1 by lia.
    set (m := 16777216 - c).
    assert (Hm : 0 < m <= 8388608) by (unfold m; lia).
    rewrite dec_lon_west by lia.
    assert (Hd : 21 <= m * 360000000 / 16777216 <= 180000000) by bounds.
    rewrite to_int32_of_uint32 by lia.
    rewrite enc_lon_west by lia.
    rewrite lon_requantise by lia.
    symmetry. apply Z.mod_unique with (q := -1); unfold m; lia.
Qed.

(** X7.  For every [int32_t] longitude, in or out of the domain, encoding
    is stable under decoding and encoding again, with no exception, and so
    the clamping idiom
    [set_lon = osmo_gad_dec_lon(osmo_gad_enc_lon(orig_lon))] is idempotent. *)
Theorem lon_reencode_stable (orig_lon : Z) :
  let clamp x := to_int32 (osmo_gad_dec_lon (to_int32 (osmo_gad_enc_lon x))) in
  osmo_gad_enc_lon (clamp orig_lon) = osmo_gad_enc_lon orig_lon
  /\ clamp (clamp orig_lon) = clamp orig_lon.
Proof.
  intros clamp. unfold clamp.
  rewrite lon_code_reencode by apply enc_lon_range.
  split; reflexivity.
Qed.


(** The range of the decoder on 24-bit codes. *)
Lemma dec_lon_range (lon_code : Z) :
  0 <= lon_code <= 0xFFFFFF ->
  - 180000000 <= to_int32 (osmo_gad_dec_lon (to_int32 lon_code)) < 180000000.
Proof.
  intros Hc. rewrite (to_int32_id lon_code) by lia.
  destruct (Z.lt_ge_cases lon_code 8388608) as [Hlo|Hhi].
  - rewrite dec_lon_east by lia. rewrite to_int32_id; bounds.
  - replace lon_code with (16777216 - (16777216 - lon_code)) by lia.
    rewrite dec_lon_west by lia.
    rewrite to_int32_of_uint32; bounds.
Qed.

(** X9.  Every 24-bit code decodes to a longitude of the domain,
    -180 degrees included and +180 degrees excluded. *)
Theorem dec_lon_in_domain (lon_code : Z) :
  0 <= lon_code <= 0xFFFFFF ->
  - 180000000 <= to_int32 (osmo_gad_dec_lon (to_int32 lon_code)) < 180000000.
Proof.
  intros Hc. rewrite (to_int32_id lon_code) by lia.
  destruct (Z.lt_ge_cases lon_code 8388608) as [Hlo|Hhi].
  - rewrite dec_lon_east by lia. rewrite to_int32_id; bounds.
  - replace lon_code with (16777216 - (16777216 - lon_code)) by lia.
    rewrite dec_lon_west by lia.
    rewrite to_int32_of_uint32; bounds.
Qed.


(** ** Uncertainty *)

(** The search of [osmo_gad_enc_unc], run from index 0. *)
Lemma enc_unc_bracket mm :
  0 <= mm ->
  let k := osmo_gad_enc_unc mm in
  0 <= k <= 127
  /\ table_at k <= mm
  /\ (k < 127 -> mm < table_at (k + 1)).
Proof.
  intros Hmm k.
  destruct (enc_unc_from_spec mm Hmm 128%nat 0) as (Hk & Hle & Hnext & _);
    try lia.
  change (enc_unc_from 128 0 mm) with k in Hk, Hle, Hnext.
  auto.
Qed.

Lemma dec_unc_index k : 0 <= k <= 127 -> osmo_gad_dec_unc k = table_at k.
Proof.
  intros Hk. unfold osmo_gad_dec_unc.
  change 0x7f with (Z.ones 7). rewrite Z.land_ones by lia.
  change (2 ^ 7) with 128. now rewrite Z.mod_small by lia.
Qed.

(** From one entry of the table to the next the radius grows by a tenth
    and one metre, the rounding of the entries apart. *)
Lemma table_growth k :
  0 <= k < 127 -> 10 * table_at (k + 1) <= 11 * table_at k + 10010.
Proof.
  intros Hk. apply Z.leb_le.
  apply (forall_below 127
           (fun i => 10 * table_at (i + 1) <=? 11 * table_at i + 10010));
    [vm_compute; reflexivity | assumption].
Qed.

(** X11.  Both directions keep the order: a larger radius never gets a
    smaller code, and of two codes the larger decodes to the strictly
    larger radius. *)
Theorem unc_order_preserved (mm1 mm2 code1 code2 : Z) :
  0 <= mm1 <= mm2 -> 0 <= code1 < code2 -> code2 <= 127 ->
  osmo_gad_enc_unc mm1 <= osmo_gad_enc_unc mm2
  /\ osmo_gad_dec_unc code1 < osmo_gad_dec_unc code2.
Proof.
  intros Hmm Hcode Hlast. split.
  - destruct (enc_unc_bracket mm1 ltac:(lia)) as (Hk1 & Hle1 & _).
    destruct (enc_unc_bracket mm2 ltac:(lia)) as (Hk2 & _ & Hnext2).
    cbv zeta in *.
    destruct (Z.le_gt_cases (osmo_gad_enc_unc mm1) (osmo_gad_enc_unc mm2))
      as [|Hgt]; [assumption|].
    specialize (Hnext2 ltac:(lia)).
    pose proof (table_mono (osmo_gad_enc_unc mm2 + 1) (osmo_gad_enc_unc mm1)
                  ltac:(lia) ltac:(lia)).
    lia.
  - rewrite !dec_unc_index by lia.
    pose proof (table_step code1 ltac:(lia)).
    pose proof (table_mono (code1 + 1) code2 ltac:(lia) ltac:(lia)). lia.
Qed.

(** X12.  The idiom of the documentation,
    [set_unc = osmo_gad_dec_unc(osmo_gad_enc_unc(orig_unc))], rounds a
    radius down to an entry of the table: the result is at most the
    original, encodes to the same code, and, below the last entry of the
    table, understates the original by less than a tenth of itself and one
    metre. *)
Theorem unc_clamp_rounds_down (orig_unc : Z) :
  0 <= orig_unc <= 0xFFFFFFFF ->
  let set_unc := osmo_gad_dec_unc (osmo_gad_enc_unc orig_unc) in
  set_unc <= orig_unc
  /\ osmo_gad_enc_unc set_unc = osmo_gad_enc_unc orig_unc
  /\ (orig_unc < table_at 127 -> 10 * orig_unc < 11 * set_unc + 10010).
Proof.
  intros Hmm set_unc. unfold set_unc. clear set_unc.
  destruct (enc_unc_bracket orig_unc ltac:(lia)) as (Hk & Hle & Hnext).
  cbv zeta in *. set (k := osmo_gad_enc_unc orig_unc) in *.
  rewrite dec_unc_index by assumption.
  split; [assumption|split].
  - rewrite <- (dec_unc_index k) by assumption. apply Z.eqb_eq.
    apply (forall_below 128
             (fun c => osmo_gad_enc_unc (osmo_gad_dec_unc c) =? c));
      [vm_compute; reflexivity | lia].
  - intros Hlast.
    assert (Hk' : k < 127).
    { destruct (Z.eq_dec k 127) as [E|]; [rewrite E in Hle; lia | lia]. }
    specialize (Hnext Hk').
    pose proof (table_growth k ltac:(lia)). lia.
Qed.

(** * Further properties of the codec *)

(** ** Bytes on the wire *)

(** A value of 24 bits in its three bytes. *)
Lemma u24_bytes N :
  0 <= N < 16777216 ->
  N / 65536 * 65536 + N / 256 mod 256 * 256 + N mod 256 = N
  /\ is_byte (N / 65536) /\ is_byte (N / 256 mod 256) /\ is_byte (N mod 256).
Proof. intros HN. unfold is_byte. repeat split; bounds. Qed.

(** The big-endian load of three bytes. *)
Lemma load_u24be (p : list Z) :
  is_byte (nth 0 p 0) -> is_byte (nth 1 p 0) -> is_byte (nth 2 p 0) ->
  osmo_load32be_ext_2 p 3
  = nth 0 p 0 * 65536 + nth 1 p 0 * 256 + nth 2 p 0.
Proof.
  unfold is_byte. intros H0 H1 H2.
  assert (E1 : nth 0 (tl p) 0 = nth 1 p 0) by (destruct p; reflexivity).
  assert (E2 : nth 0 (tl (tl p)) 0 = nth 2 p 0)
    by (destruct p as [|? [|? ?]]; reflexivity).
  cbn [osmo_load32be_ext_2]. rewrite E1, E2.
  change (8 * Z.of_nat 2) with 16. change (8 * Z.of_nat 1) with 8.
  change (8 * Z.of_nat 0) with 0.
  rewrite !Z.shiftl_mul_pow2, Z.lor_0_r by lia.
  change (2 ^ 0) with 1. rewrite Z.mul_1_r.
  rewrite (Z.lor_comm (nth 1 p 0 * 2 ^ 8)), lor_low_high
    by (change (2 ^ 8) with 256; lia).
  rewrite Z.lor_comm, lor_low_high
    by (change (2 ^ 8) with 256; change (2 ^ 16) with 65536; lia).
  change (2 ^ 8) with 256. change (2 ^ 16) with 65536. lia.
Qed.

Lemma nth_is_byte (data : list Z) (i : nat) :
  Forall is_byte data -> is_byte (nth i data 0).
Proof.
  intros Hall. destruct (Nat.lt_ge_cases i (List.length data)) as [Hlt|Hge].
  - rewrite Forall_forall in Hall. apply Hall, nth_In, Hlt.
  - rewrite nth_overflow by assumption. unfold is_byte. lia.
Qed.

Lemma load_u24be_range (data : list Z) (i : nat) :
  Forall is_byte data ->
  0 <= osmo_load32be_ext_2 (skipn i data) 3 <= 0xFFFFFF.
Proof.
  intros Hall.
  assert (Hskip : Forall is_byte (skipn i data)).
  { rewrite Forall_forall in *. intros b Hb. apply Hall.
    rewrite <- (firstn_skipn i data). apply in_or_app. now right. }
  pose proof (nth_is_byte _ 0 Hskip) as H0.
  pose proof (nth_is_byte _ 1 Hskip) as H1.
  pose proof (nth_is_byte _ 2 Hskip) as H2.
  rewrite load_u24be by assumption.
  unfold is_byte in *. change 0xFFFFFF with 16777215. lia.
Qed.

(** The frame that [osmo_gad_enc_ell_point_unc_circle] appends. *)
Lemma enc_circle_frame (msg : msgb) (v : gad_ell_point_unc_circle) :
  let N_lat := osmo_gad_enc_lat (lat v) in
  let N_lon := osmo_gad_enc_lon (lon v) in
  osmo_gad_enc_ell_point_unc_circle msg v
  = (8, msg ++ [ 16;
                 N_lat / 65536; N_lat / 256 mod 256; N_lat mod 256;
                 N_lon / 65536; N_lon / 256 mod 256; N_lon mod 256;
                 osmo_gad_enc_unc (unc v) ]).
Proof.
  intros N_lat N_lon.
  pose proof (enc_lat_range (lat v)) as Hlat. fold N_lat in Hlat.
  pose proof (enc_lon_range (lon v)) as Hlon. fold N_lon in Hlon.
  pose proof (enc_unc_from_uint8 (unc v) 128 0) as Hunc.
  change (enc_unc_from 128 0 (unc v)) with (osmo_gad_enc_unc (unc v)) in Hunc.
  unfold osmo_gad_enc_ell_point_unc_circle.
  fold N_lat. fold N_lon.
  unfold put_u24be, msgb_put_u8, msgb_tail.
  rewrite !store_u24be by assumption.
  rewrite (to_uint8_id (osmo_gad_enc_unc (unc v))) by assumption.
  change (to_uint8 (Z.shiftl GAD_TYPE_ELL_POINT_UNC_CIRCLE 4)) with 16.
  rewrite <- !app_assoc. cbn [app].
  f_equal. rewrite length_app. cbn [List.length]. lia.
Qed.

(** The struct read back from a zeroed union it was written to. *)
Lemma circle_view_of_set (t : Z) (v : gad_ell_point_unc_circle) :
  ell_point_unc_circle
    (set_ell_point_unc_circle {| type := t; u := u gad_pdu_zero |} v)
  = {| lat := to_int32 (lat v); lon := to_int32 (lon v);
       unc := to_uint32 (unc v) |}.
Proof.
  unfold ell_point_unc_circle, set_ell_point_unc_circle.
  cbn [u type gad_pdu_zero GAD_UNION_WORDS repeat set_word word nth].
  now rewrite !to_int32_to_uint32.
Qed.

Lemma land_0x80_small k : 0 <= k <= 127 -> Z.land k 0x80 = 0.
Proof.
  intros Hk. rewrite land_0x80.
  rewrite (testbit_top k 7) by (change (2 ^ (7 + 1)) with 256; lia).
  change (2 ^ 7) with 128.
  destruct (Z.leb_spec 128 k); [lia | reflexivity].
Qed.

Section CodecProperties.

Variable unknown_value_string : Z -> string.

Local Abbreviation osmo_gad_dec := (osmo_gad_dec unknown_value_string).
Local Abbreviation osmo_gad_dec_ell_point_unc_circle :=
  (osmo_gad_dec_ell_point_unc_circle unknown_value_string).

(** X13.  Encoding then decoding.  Whatever an uncertainty-circle PDU
    holds, the 8 bytes that [osmo_gad_enc] makes of it are accepted by
    [osmo_gad_dec], which leaves no error record and a PDU of the same type
    with each field clamped to its encodable value. *)
Theorem dec_enc_clamps (gad : gad_pdu) (err : bool) (m : list Z) :
  0 <= word 2 m <= 0xFFFFFFFF ->
  let pdu := {| type := GAD_TYPE_ELL_POINT_UNC_CIRCLE; u := m |} in
  let v := ell_point_unc_circle pdu in
  let msg := snd (osmo_gad_enc [] pdu) in
  osmo_gad_dec gad err msg (msgb_tail msg)
  = {| dec_rc := 0;
       dec_gad :=
         set_ell_point_unc_circle
           {| type := GAD_TYPE_ELL_POINT_UNC_CIRCLE; u := u gad_pdu_zero |}
           {| lat := to_int32 (osmo_gad_dec_lat
                                 (to_int32 (osmo_gad_enc_lat (lat v))));
              lon := to_int32 (osmo_gad_dec_lon
                                 (to_int32 (osmo_gad_enc_lon (lon v))));
              unc := osmo_gad_dec_unc (osmo_gad_enc_unc (unc v)) |};
       dec_err := None |}.
Proof.
  intros Hunc pdu v msg.
  assert (Emsg : msg = [ 16;
            osmo_gad_enc_lat (lat v) / 65536;
            osmo_gad_enc_lat (lat v) / 256 mod 256;
            osmo_gad_enc_lat (lat v) mod 256;
            osmo_gad_enc_lon (lon v) / 65536;
            osmo_gad_enc_lon (lon v) / 256 mod 256;
            osmo_gad_enc_lon (lon v) mod 256;
            osmo_gad_enc_unc (unc v) ]).
  { unfold msg, osmo_gad_enc.
    change (type pdu =? GAD_TYPE_ELL_POINT_UNC_CIRCLE) with true. cbv iota.
    fold v. now rewrite enc_circle_frame. }
  rewrite Emsg. clear Emsg msg.
  destruct (u24_bytes _ (enc_lat_range (lat v))) as (Elat & ? & ? & ?).
  destruct (u24_bytes _ (enc_lon_range (lon v))) as (Elon & ? & ? & ?).
  assert (Hv : 0 <= unc v) by (change (unc v) with (word 2 m); lia).
  destruct (enc_unc_bracket (unc v) Hv) as (Hk & _).
  cbv zeta in Hk.
  rewrite dec_circle by (reflexivity || (cbn; lia)).
  unfold osmo_gad_dec_ell_point_unc_circle, msgb_tail.
  cbn [List.length Z.of_nat Pos.of_succ_nat Pos.succ Z.eqb Pos.eqb negb
       skipn nth].
  rewrite !load_u24be by (cbn [nth]; assumption).
  cbn [nth]. rewrite Elat, Elon.
  rewrite land_0x80_small by assumption.
  cbn [Z.eqb negb fst snd lat lon unc]. reflexivity.
Qed.

(** X14.  Decoding then encoding.  An 8-byte frame of the
    uncertainty-circle type with the reserved bit of byte 7 clear is
    accepted, and encoding the decoded PDU gives the frame back in its
    canonical form: the reserved low nibble of byte 0 cleared and, if the
    latitude was the sign bit alone, a latitude of 0; all other bytes
    unchanged. *)
Theorem enc_dec_canonical
  (gad : gad_pdu) (err : bool) (b0 b1 b2 b3 b4 b5 b6 b7 : Z) :
  Z.shiftr b0 4 = GAD_TYPE_ELL_POINT_UNC_CIRCLE ->
  Forall is_byte [b1; b2; b3; b4; b5; b6] -> 0 <= b7 <= 127 ->
  let r := osmo_gad_dec gad err [b0; b1; b2; b3; b4; b5; b6; b7] 8 in
  dec_rc r = 0
  /\ osmo_gad_enc [] (dec_gad r)
     = (8, [ Z.shiftl GAD_TYPE_ELL_POINT_UNC_CIRCLE 4 ]
           ++ (if (b1 =? 0x80) && (b2 =? 0) && (b3 =? 0)
               then [0; 0; 0] else [b1; b2; b3])
           ++ [b4; b5; b6; b7]).
Proof.
  intros Hty Hbytes Hb7 r. unfold r. clear r.
  repeat match goal with
         | H : Forall _ (_ :: _) |- _ => inversion H; subst; clear H
         end.
  unfold is_byte in *.
  rewrite dec_circle by (assumption || lia).
  unfold osmo_gad_dec_ell_point_unc_circle.
  cbn [Z.eqb Pos.eqb negb skipn nth].
  rewrite !load_u24be by (cbn [nth]; unfold is_byte; lia).
  cbn [nth]. rewrite land_0x80_small by assumption.
  cbn [Z.eqb negb fst snd dec_rc dec_gad lat lon unc].
  split; [reflexivity|].
  unfold osmo_gad_enc.
  change (type (set_ell_point_unc_circle _ _) =? GAD_TYPE_ELL_POINT_UNC_CIRCLE)
    with true. cbv iota.
  rewrite circle_view_of_set, enc_circle_frame.
  cbn [lat lon unc app].
  set (A := b1 * 65536 + b2 * 256 + b3).
  set (O := b4 * 65536 + b5 * 256 + b6).
  assert (HA : 0 <= A < 16777216) by (unfold A; lia).
  assert (HO : 0 <= O < 16777216) by (unfold O; lia).
  rewrite !(to_int32_id (to_int32 _)) by apply to_int32_range.
  rewrite lat_code_reencode, lon_code_reencode by assumption.
  assert (Eunc : osmo_gad_enc_unc (to_uint32 (osmo_gad_dec_unc b7)) = b7).
  { rewrite to_uint32_id.
    - apply Z.eqb_eq.
      apply (forall_below 128
               (fun c => osmo_gad_enc_unc (osmo_gad_dec_unc c) =? c));
        [vm_compute; reflexivity | lia].
    - rewrite dec_unc_index by lia.
      pose proof (table_mono 0 b7 ltac:(lia) ltac:(lia)) as Hlo.
      pose proof (table_mono b7 127 ltac:(lia) ltac:(lia)) as Hhi.
      change (table_at 0) with 0 in Hlo.
      change (table_at 127) with 1806627477 in Hhi. lia. }
  rewrite Eunc.
  assert (Elon : [O / 65536; O / 256 mod 256; O mod 256] = [b4; b5; b6])
    by (unfold O; repeat f_equal; bounds).
  injection Elon as -> -> ->.
  change (Z.shiftl GAD_TYPE_ELL_POINT_UNC_CIRCLE 4) with 16.
  destruct (Z.eqb_spec A 0x800000) as [EA|NA].
  - assert (b1 = 0x80 /\ b2 = 0 /\ b3 = 0) as (-> & -> & ->)
      by (unfold A in EA; lia).
    reflexivity.
  - assert (Elat : [A / 65536; A / 256 mod 256; A mod 256] = [b1; b2; b3])
      by (unfold A; repeat f_equal; bounds).
    injection Elat as -> -> ->.
    destruct (Z.eqb_spec b1 0x80) as [->|]; [|reflexivity].
    destruct (Z.eqb_spec b2 0) as [->|]; [|reflexivity].
    destruct (Z.eqb_spec b3 0) as [->|]; [|reflexivity].
    exfalso. apply NA. reflexivity.
Qed.

End CodecProperties.

(** ** The encoder as a whole *)

(** X21.  [osmo_gad_enc] appends a whole frame or nothing: it returns 8 or
    [-ENOTSUP], the bytes already in the message stay as they are, and the
    message grows by exactly the number of bytes returned (by none on
    failure), which is what the repository's test checks with
    [rc != msg->len]. *)
Theorem enc_all_or_nothing (msg : msgb) (gad : gad_pdu) :
  let '(ret, msg') := osmo_gad_enc msg gad in
  (ret = 8 /\ type gad = GAD_TYPE_ELL_POINT_UNC_CIRCLE
   \/ ret = - ENOTSUP /\ type gad <> GAD_TYPE_ELL_POINT_UNC_CIRCLE)
  /\ firstn (List.length msg) msg' = msg
  /\ msgb_tail msg' - msgb_tail msg = Z.max 0 ret.
Proof.
  unfold osmo_gad_enc.
  destruct (Z.eqb_spec (type gad) GAD_TYPE_ELL_POINT_UNC_CIRCLE) as [E|NE].
  - rewrite enc_circle_frame. cbv zeta.
    split; [left; split; [reflexivity | assumption]|].
    split.
    + rewrite firstn_app, Nat.sub_diag, firstn_all. cbn [firstn].
      now rewrite app_nil_r.
    + unfold msgb_tail. rewrite length_app. cbn [List.length]. lia.
  - split; [right; split; [reflexivity | assumption]|].
    split; [apply firstn_all|].
    unfold msgb_tail, ENOTSUP. lia.
Qed.

(** ** The paths of the decoder *)

Section DecoderPaths.

Variable unknown_value_string : Z -> string.

Local Abbreviation osmo_gad_dec := (osmo_gad_dec unknown_value_string).
Local Abbreviation osmo_gad_dec_ell_point_unc_circle :=
  (osmo_gad_dec_ell_point_unc_circle unknown_value_string).

Lemma dec_circle_bad_length gad err data len :
  1 <= len -> len <> 8 ->
  Z.shiftr (nth 0 data 0) 4 = GAD_TYPE_ELL_POINT_UNC_CIRCLE ->
  osmo_gad_dec gad err data len
  = {| dec_rc := - EINVAL;
       dec_gad := {| type := GAD_TYPE_ELL_POINT_UNC_CIRCLE;
                     u := u gad_pdu_zero |};
       dec_err :=
         if err
         then Some {| rc := - EINVAL;
                      err_type := GAD_TYPE_ELL_POINT_UNC_CIRCLE;
                      logmsg := ("Error decoding GAD: "
                                 ++ "Expecting length of 8 bytes, got "
                                 ++ fmt_u len)%string |}
         else None |}.
Proof.
  intros Hlen Hne Hty. rewrite dec_circle by assumption.
  unfold osmo_gad_dec_ell_point_unc_circle.
  destruct (Z.eqb_spec len 8) as [?|_]; [contradiction|].
  cbn [negb fst snd]. destruct err; reflexivity.
Qed.

Lemma dec_circle_reserved gad err data :
  Z.shiftr (nth 0 data 0) 4 = GAD_TYPE_ELL_POINT_UNC_CIRCLE ->
  Z.testbit (nth 7 data 0) 7 = true ->
  let r := osmo_gad_dec gad err data 8 in
  dec_rc r = - EINVAL
  /\ type (dec_gad r) = GAD_TYPE_ELL_POINT_UNC_CIRCLE
  /\ dec_err r
     = if err
       then Some {| rc := - EINVAL;
                    err_type := GAD_TYPE_ELL_POINT_UNC_CIRCLE;
                    logmsg := ("Error decoding GAD: "
                               ++ "Bit 8 of Uncertainty code should be zero (unc = 0x"
                               ++ fmt_x (nth 7 data 0) ++ ")")%string |}
       else None.
Proof.
  intros Hty Hbit r. unfold r. clear r.
  rewrite dec_circle by (assumption || lia).
  unfold osmo_gad_dec_ell_point_unc_circle.
  cbn [Z.eqb Pos.eqb negb]. rewrite land_0x80, Hbit.
  cbn [Z.eqb negb fst snd]. destruct err; repeat split.
Qed.

Lemma dec_circle_ok gad err data :
  Z.shiftr (nth 0 data 0) 4 = GAD_TYPE_ELL_POINT_UNC_CIRCLE ->
  Z.testbit (nth 7 data 0) 7 = false ->
  osmo_gad_dec gad err data 8
  = {| dec_rc := 0;
       dec_gad :=
         set_ell_point_unc_circle
           {| type := GAD_TYPE_ELL_POINT_UNC_CIRCLE; u := u gad_pdu_zero |}
           {| lat := to_int32 (osmo_gad_dec_lat
                       (to_int32 (osmo_load32be_ext_2 (skipn 1 data) 3)));
              lon := to_int32 (osmo_gad_dec_lon
                       (to_int32 (osmo_load32be_ext_2 (skipn 4 data) 3)));
              unc := osmo_gad_dec_unc (nth 7 data 0) |};
       dec_err := None |}.
Proof.
  intros Hty Hbit. rewrite dec_circle by (assumption || lia).
  unfold osmo_gad_dec_ell_point_unc_circle.
  cbn [Z.eqb Pos.eqb negb]. rewrite land_0x80, Hbit.
  cbn [Z.eqb negb fst snd lat lon unc]. reflexivity.
Qed.

Lemma dec_path_total data len : dec_path data len.
Proof.
  destruct (Z.lt_ge_cases len 1); [now apply path_empty|].
  destruct (Z.eq_dec (Z.shiftr (nth 0 data 0) 4) GAD_TYPE_ELL_POINT_UNC_CIRCLE);
    [|apply path_unsupported; assumption || lia].
  destruct (Z.eq_dec len 8); [|apply path_bad_length; assumption || lia].
  destruct (Z.testbit (nth 7 data 0) 7) eqn:E;
    [now apply path_reserved | now apply path_ok].
Qed.

(** X15.  The return code of [osmo_gad_dec] is decided by the length, the
    type nibble of byte 0 and the top bit of byte 7, and by nothing else in
    the buffer, the PDU or the [err] argument: 0 exactly for an 8-byte
    uncertainty-circle frame with the reserved bit clear, [-ENOTSUP]
    exactly for a non-empty buffer of another type, [-EINVAL] otherwise. *)
Theorem dec_return_code (gad : gad_pdu) (err : bool) (data : list Z) (len : Z) :
  dec_rc (osmo_gad_dec gad err data len)
  = if len <? 1 then - EINVAL
    else if negb (Z.shiftr (nth 0 data 0) 4 =? GAD_TYPE_ELL_POINT_UNC_CIRCLE)
    then - ENOTSUP
    else if (len =? 8) && negb (Z.testbit (nth 7 data 0) 7)
    then 0
    else - EINVAL.
Proof.
  destruct (dec_path_total data len) as [H|H Hty|H Hne Hty|H Hty Hbit|H Hty Hbit].
  - rewrite dec_zero_length by assumption.
    destruct (Z.ltb_spec len 1); [reflexivity | lia].
  - rewrite dec_unsupported by assumption.
    destruct (Z.ltb_spec len 1); [lia|].
    destruct (Z.eqb_spec (Z.shiftr (nth 0 data 0) 4)
                GAD_TYPE_ELL_POINT_UNC_CIRCLE); [contradiction | reflexivity].
  - rewrite dec_circle_bad_length by assumption.
    destruct (Z.ltb_spec len 1); [lia|]. rewrite Hty.
    destruct (Z.eqb_spec len 8); [contradiction | reflexivity].
  - subst len. destruct (dec_circle_reserved gad err data Hty Hbit) as (-> & _).
    rewrite Hty, Hbit. reflexivity.
  - subst len. rewrite dec_circle_ok by assumption.
    rewrite Hty, Hbit. reflexivity.
Qed.

(** X16.  The error record follows the return code.  A caller that passes
    no [err] gets none; one that does gets a record exactly when the return
    code is not 0, the record carries that return code, and its type is the
    type left in the PDU, or -1 when the buffer was empty and no type was
    read. *)
Theorem dec_error_record (gad : gad_pdu) (err : bool) (data : list Z) (len : Z) :
  let r := osmo_gad_dec gad err data len in
  (dec_err r = None <-> err = false \/ dec_rc r = 0)
  /\ (forall e, dec_err r = Some e ->
      rc e = dec_rc r
      /\ err_type e = if len <? 1 then -1 else type (dec_gad r)).
Proof.
  intros r. unfold r. clear r.
  destruct (dec_path_total data len) as [H|H Hty|H Hne Hty|H Hty Hbit|H Hty Hbit].
  - rewrite dec_zero_length by assumption.
    destruct (Z.ltb_spec len 1); [|lia].
    cbn [dec_rc dec_err dec_gad]. destruct err; split.
    + split; [discriminate | intros [?|?]; discriminate].
    + intros e [= <-]. split; reflexivity.
    + split; [now left | reflexivity].
    + discriminate.
  - rewrite dec_unsupported by assumption.
    destruct (Z.ltb_spec len 1); [lia|].
    cbn [dec_rc dec_err dec_gad type]. unfold DEC_ERR.
    destruct err; cbn [snd]; split.
    + split; [discriminate | intros [?|?]; discriminate].
    + intros e [= <-]. split; reflexivity.
    + split; [now left | reflexivity].
    + discriminate.
  - rewrite dec_circle_bad_length by assumption.
    destruct (Z.ltb_spec len 1); [lia|].
    cbn [dec_rc dec_err dec_gad type]. destruct err; split.
    + split; [discriminate | intros [?|?]; discriminate].
    + intros e [= <-]. split; reflexivity.
    + split; [now left | reflexivity].
    + discriminate.
  - subst len.
    destruct (dec_circle_reserved gad err data Hty Hbit) as (-> & -> & ->).
    cbn [Z.ltb Z.compare]. destruct err; split.
    + split; [discriminate | intros [?|?]; discriminate].
    + intros e [= <-]. split; reflexivity.
    + split; [now left | reflexivity].
    + discriminate.
  - subst len. rewrite dec_circle_ok by assumption.
    cbn [dec_rc dec_err dec_gad]. split.
    + split; [now right | reflexivity].
    + discriminate.
Qed.

(** X17.  What a successful decode of a buffer of bytes leaves in the PDU
    lies in the documented domains: the type is the uncertainty circle, the
    latitude is strictly between -90 and 90 degrees, the longitude between
    -180 degrees and just below 180 degrees, and the uncertainty is the
    entry of the table that byte 7 selects. *)
Theorem dec_success_in_domain
  (gad : gad_pdu) (err : bool) (data : list Z) (len : Z) :
  Forall is_byte data ->
  dec_rc (osmo_gad_dec gad err data len) = 0 ->
  let out := dec_gad (osmo_gad_dec gad err data len) in
  let v := ell_point_unc_circle out in
  type out = GAD_TYPE_ELL_POINT_UNC_CIRCLE
  /\ - 90000000 < lat v < 90000000
  /\ - 180000000 <= lon v < 180000000
  /\ unc v = table_at (nth 7 data 0)
  /\ 0 <= unc v <= 1806627477.
Proof.
  intros Hbytes Hrc out v. unfold v, out. clear v out.
  destruct (dec_path_total data len) as [H|H Hty|H Hne Hty|H Hty Hbit|H Hty Hbit].
  - rewrite dec_zero_length in Hrc by assumption. discriminate Hrc.
  - rewrite dec_unsupported in Hrc by assumption. discriminate Hrc.
  - rewrite dec_circle_bad_length in Hrc by assumption. discriminate Hrc.
  - subst len.
    destruct (dec_circle_reserved gad err data Hty Hbit) as (E & _).
    rewrite E in Hrc. discriminate Hrc.
  - subst len. rewrite dec_circle_ok by assumption. cbn [dec_gad].
    rewrite circle_view_of_set. cbn [lat lon unc type set_ell_point_unc_circle].
    rewrite !(to_int32_id (to_int32 _)) by apply to_int32_range.
    pose proof (load_u24be_range data 1 Hbytes) as Hlat.
    pose proof (load_u24be_range data 4 Hbytes) as Hlon.
    pose proof (nth_is_byte data 7 Hbytes) as Hb7. unfold is_byte in Hb7.
    assert (Hb7' : 0 <= nth 7 data 0 <= 127).
    { rewrite (testbit_top _ 7) in Hbit
        by (change (2 ^ (7 + 1)) with 256; lia).
      change (2 ^ 7) with 128 in Hbit.
      destruct (Z.leb_spec 128 (nth 7 data 0)); [discriminate | lia]. }
    rewrite dec_unc_index by assumption.
    pose proof (table_mono 0 (nth 7 data 0) ltac:(lia) ltac:(lia)) as Hlo.
    pose proof (table_mono (nth 7 data 0) 127 ltac:(lia) ltac:(lia)) as Hhi.
    change (table_at 0) with 0 in Hlo.
    change (table_at 127) with 1806627477 in Hhi.
    rewrite to_uint32_id by lia.
    split; [reflexivity|].
    split; [apply dec_lat_range, Hlat|].
    split; [apply dec_lon_range, Hlon|].
    split; [reflexivity | lia].
Qed.

End DecoderPaths.

(** * Further properties of the string formatter *)

Lemma string_append_empty (a : string) : (a ++ "")%string = a.
Proof. induction a as [|c a IH]; cbn; congruence. Qed.

Lemma substring_append_long (a b : string) (n : nat) :
  substring 0 (String.length a + n) (a ++ b) = (a ++ substring 0 n b)%string.
Proof.
  induction a as [|c a IH]; cbn [String.length append Nat.add substring].
  - reflexivity.
  - now rewrite IH.
Qed.

Lemma substring_append_short (a b : string) :
  forall n, (n <= String.length a)%nat ->
            substring 0 n (a ++ b) = substring 0 n a.
Proof.
  induction a as [|c a IH]; intros [|n] Hn; cbn in *; try reflexivity; try lia.
  - now destruct b.
  - f_equal. apply IH. lia.
Qed.

Lemma substring_length (s : string) :
  forall n, String.length (substring 0 n s) = Nat.min n (String.length s).
Proof.
  induction s as [|c s IH]; intros [|n]; cbn; try reflexivity.
  now rewrite IH.
Qed.

Lemma string_concat_cons (p : string) (ps : list string) :
  String.concat "" (p :: ps) = (p ++ String.concat "" ps)%string.
Proof.
  destruct ps; cbn [String.concat]; [|reflexivity].
  now rewrite string_append_empty.
Qed.

(** One [OSMO_STRBUF_APPEND] keeps the buffer in step with the text. *)
Lemma strbuf_append_after (buflen : Z) (text piece : string) :
  0 <= buflen ->
  OSMO_STRBUF_APPEND (strbuf_after buflen text) piece
  = strbuf_after buflen (text ++ piece).
Proof.
  intros HL. unfold OSMO_STRBUF_APPEND, strbuf_after.
  cbn [sb_buf sb_len sb_pos sb_chars_needed].
  rewrite string_length_append, Nat2Z.inj_add.
  set (t := String.length text). set (l := String.length piece).
  destruct (Z.ltb_spec (Z.of_nat t) buflen) as [Hin|Hout].
  - replace (Z.to_nat (buflen - 1))
      with (t + Z.to_nat (buflen - Z.of_nat t - 1))%nat by lia.
    unfold t. rewrite substring_append_long.
    rewrite (substring_whole text) by lia. fold t.
    f_equal.
    destruct (Z.ltb_spec (buflen - Z.of_nat t) (Z.of_nat l));
      destruct (Z.ltb_spec (Z.of_nat t + Z.of_nat l) buflen); lia.
  - replace (Z.to_nat (buflen - buflen - 1)) with 0%nat by lia.
    rewrite (substring_append_short text piece) by (fold t; lia).
    assert (E : substring 0 0 piece = ""%string) by (destruct piece; reflexivity).
    rewrite E, string_append_empty.
    f_equal.
    destruct (Z.ltb_spec (buflen - buflen) (Z.of_nat l));
      destruct (Z.ltb_spec (Z.of_nat t + Z.of_nat l) buflen); lia.
Qed.

Lemma strbuf_appends_after (buflen : Z) (pieces : list string) :
  0 <= buflen ->
  forall text,
    fold_left OSMO_STRBUF_APPEND pieces (strbuf_after buflen text)
    = strbuf_after buflen (text ++ String.concat "" pieces).
Proof.
  intros HL. induction pieces as [|p ps IH]; intros text.
  - cbn. now rewrite string_append_empty.
  - cbn [fold_left]. rewrite strbuf_append_after, IH by assumption.
    now rewrite string_concat_cons, string_append_assoc.
Qed.

Section FormatterMore.

Variable unknown_value_string : Z -> string.
Variable osmo_micros_to_float_str : Z -> string.

Local Abbreviation osmo_gad_to_str_buf :=
  (osmo_gad_to_str_buf unknown_value_string osmo_micros_to_float_str).
Local Abbreviation to_str_pieces :=
  (to_str_pieces unknown_value_string osmo_micros_to_float_str).
Local Abbreviation osmo_gad_type_name :=
  (osmo_gad_type_name unknown_value_string).

(** [osmo_gad_to_str_buf] as the sequence of its appends. *)
Lemma to_str_buf_appends (buflen : Z) (gad : option gad_pdu) :
  0 <= buflen ->
  osmo_gad_to_str_buf buflen gad
  = (let sb := fold_left OSMO_STRBUF_APPEND (to_str_pieces gad)
                 (strbuf_after buflen "") in
     (sb_chars_needed sb, sb_buf sb)).
Proof.
  intros HL.
  assert (E0 : strbuf_after buflen ""
               = {| sb_buf := ""; sb_len := buflen; sb_pos := 0;
                    sb_chars_needed := 0 |}).
  { unfold strbuf_after. cbn [String.length Z.of_nat].
    destruct (Z.to_nat (buflen - 1)); cbn [substring];
      destruct (Z.ltb_spec 0 buflen); f_equal; lia. }
  rewrite E0. destruct gad as [gad|]; [|reflexivity].
  unfold osmo_gad_to_str_buf, to_str_pieces.
  destruct (type gad =? GAD_TYPE_ELL_POINT);
    [|destruct (type gad =? GAD_TYPE_ELL_POINT_UNC_CIRCLE)]; reflexivity.
Qed.

Lemma to_str_buf_text (buflen : Z) (gad : option gad_pdu) :
  0 <= buflen ->
  osmo_gad_to_str_buf buflen gad
  = (Z.of_nat (String.length (String.concat "" (to_str_pieces gad))),
     substring 0 (Z.to_nat (buflen - 1))
       (String.concat "" (to_str_pieces gad))).
Proof.
  intros HL. rewrite to_str_buf_appends by assumption.
  rewrite strbuf_appends_after by assumption. reflexivity.
Qed.

(** X18.  The value returned is the number of characters of the whole
    text, whatever the size of the buffer; the buffer receives the first
    [buflen - 1] characters of the text and never more; and a second call
    with a buffer of one byte more than the value returned receives the
    whole text. *)
Theorem to_str_buf_like_snprintf (buflen : Z) (gad : option gad_pdu) :
  0 <= buflen ->
  let '(ret, buf) := osmo_gad_to_str_buf buflen gad in
  let '(ret', text) := osmo_gad_to_str_buf (ret + 1) gad in
  ret' = ret
  /\ Z.of_nat (String.length text) = ret
  /\ buf = substring 0 (Z.to_nat (buflen - 1)) text
  /\ Z.of_nat (String.length buf) <= Z.max 0 (buflen - 1).
Proof.
  intros HL.
  rewrite (to_str_buf_text buflen gad HL). cbv zeta iota.
  rewrite to_str_buf_text by lia. cbv zeta iota.
  set (full := String.concat "" (to_str_pieces gad)).
  replace (Z.to_nat (Z.of_nat (String.length full) + 1 - 1))
    with (String.length full) by lia.
  rewrite (substring_whole full) by lia.
  repeat split.
  rewrite substring_length. lia.
Qed.

(** X19.  A PDU of the uncertainty-circle type is printed as the name of
    the type and its three fields, each once: latitude, longitude, and the
    uncertainty in millimetres. *)
Theorem to_str_circle (buflen : Z) (m : list Z) :
  let gad := {| type := GAD_TYPE_ELL_POINT_UNC_CIRCLE; u := m |} in
  let v := ell_point_unc_circle gad in
  let text :=
    ("Ellipsoid-point-with-uncertainty-circle{"
     ++ "lat=" ++ osmo_micros_to_float_str (lat v)
     ++ ",lon=" ++ osmo_micros_to_float_str (lon v)
     ++ (",unc=" ++ fmt_u (unc v) ++ "mm")
     ++ "}")%string in
  Z.of_nat (String.length text) < buflen ->
  osmo_gad_to_str_buf buflen (Some gad) = (Z.of_nat (String.length text), text).
Proof.
  intros gad v text Hfit.
  rewrite to_str_buf_text by lia.
  assert (E : String.concat "" (to_str_pieces (Some gad)) = text)
    by reflexivity.
  cbv zeta. rewrite E, substring_whole by lia. reflexivity.
Qed.

(** X20.  A PDU of any type other than the plain point and the uncertainty
    circle is printed as the name of its type and a placeholder; nothing of
    the union is read, so two such PDUs of one type print alike.  A [NULL]
    PDU is printed as "null". *)
Theorem to_str_not_implemented (buflen t : Z) (m m' : list Z) :
  t <> GAD_TYPE_ELL_POINT -> t <> GAD_TYPE_ELL_POINT_UNC_CIRCLE ->
  let text :=
    ((osmo_gad_type_name t ++ "{") ++ "to-str-not-implemented" ++ "}")%string in
  Z.of_nat (String.length text) < buflen ->
  osmo_gad_to_str_buf buflen (Some {| type := t; u := m |})
  = (Z.of_nat (String.length text), text)
  /\ osmo_gad_to_str_buf buflen (Some {| type := t; u := m' |})
     = osmo_gad_to_str_buf buflen (Some {| type := t; u := m |})
  /\ (4 < buflen -> osmo_gad_to_str_buf buflen None = (4, "null"%string)).
Proof.
  intros H0 H1 text Hfit.
  assert (E : forall w, String.concat ""
                          (to_str_pieces (Some {| type := t; u := w |})) = text).
  { intros w. unfold to_str_pieces. cbn [type].
    destruct (Z.eqb_spec t GAD_TYPE_ELL_POINT); [contradiction|].
    destruct (Z.eqb_spec t GAD_TYPE_ELL_POINT_UNC_CIRCLE); [contradiction|].
    reflexivity. }
  rewrite !to_str_buf_text by lia. cbv zeta. rewrite !E.
  rewrite substring_whole by lia.
  split; [reflexivity|]. split; [reflexivity|].
  intros H4. unfold to_str_pieces. cbn [String.concat].
  rewrite substring_whole by (cbn [String.length]; lia). reflexivity.
Qed.

End FormatterMore.

(** * Instances *)

(** The PDU of the repository's test, "values rounded to the nearest
    encodable value": it encodes to 8 bytes, and decoding them into a PDU
    filled with ones gives the PDU back. *)
Example gad_test_pdu_roundtrip :
  let pdu :=
    set_ell_point_unc_circle
      {| type := GAD_TYPE_ELL_POINT_UNC_CIRCLE; u := u gad_pdu_zero |}
      {| lat := 23000006; lon := 42000002; unc := 442592 |} in
  let '(ret, msg) := osmo_gad_enc [] pdu in
  let dec := osmo_gad_dec (fun _ => EmptyString)
               {| type := 0xffffffff; u := repeat 0xffffffff 31 |}
               true msg (msgb_tail msg) in
  ret = 8
  /\ msg = [0x10; 0x20; 0xb6; 0x0c; 0x1d; 0xdd; 0xde; 0x28]
  /\ dec_rc dec = 0 /\ dec_err dec = None /\ dec_gad dec = pdu.
Proof. vm_compute. repeat split. Qed.

(** The properties above at concrete inputs.  Of the library functions
    left open, [get_value_string] is given the empty text for a value
    outside the table, and micro units are printed as integers. *)

Lemma lat_dec_enc_roundtrip_witness :
  0 <= 0x812345 <= 0xFFFFFF
  /\ osmo_gad_enc_lat (to_int32 (osmo_gad_dec_lat (to_int32 0x812345)))
     = 0x812345.
Proof.
  split; [lia|].
  exact (proj1 (lat_dec_enc_roundtrip 0x812345 ltac:(lia))).
Defined.

Lemma lon_dec_enc_roundtrip_witness :
  0 <= 0xFEDCBA <= 0xFFFFFF
  /\ osmo_gad_enc_lon (to_int32 (osmo_gad_dec_lon (to_int32 0xFEDCBA)))
     = 0xFEDCBA.
Proof.
  split; [lia|].
  apply (lon_dec_enc_roundtrip 0xFEDCBA). lia.
Defined.

Lemma unc_dec_enc_roundtrip_witness :
  0 <= 40 <= 127 /\ osmo_gad_enc_unc (osmo_gad_dec_unc 40) = 40.
Proof.
  split; [lia|].
  apply (unc_dec_enc_roundtrip 40). lia.
Defined.

Lemma enc_unc_largest_index_witness :
  0 <= 442600 <= 0xFFFFFFFF
  /\ table_at (osmo_gad_enc_unc 442600) <= 442600
  /\ (forall j, 0 <= j <= 127 -> table_at j <= 442600 ->
      j <= osmo_gad_enc_unc 442600).
Proof.
  split; [lia|].
  destruct (enc_unc_largest_index 442600 ltac:(lia)) as (_ & Hle & Hmax & _).
  exact (conj Hle Hmax).
Defined.

(** C4 as stated does not hold for length 0: decoding an empty buffer into
    a PDU whose memory is all ones (as the repository's test fills it before
    decoding) leaves the ones in place, where decoding into a zeroed PDU
    leaves zeroes. *)
Lemma dec_zero_length_keeps_stale_pdu :
  ~ (forall (gad : gad_pdu) (err : bool) (data : list Z) (len : Z),
        dec_gad (osmo_gad_dec (fun _ => EmptyString) gad err data len)
        = dec_gad (osmo_gad_dec (fun _ => EmptyString) gad_pdu_zero err data len)).
Proof.
  intros Hall.
  specialize (Hall {| type := 0xffffffff; u := repeat 0xffffffff 31 |}
                   true [] 0).
  discriminate Hall.
Qed.

Lemma dec_error_classification_witness :
  let dec := osmo_gad_dec (fun _ => EmptyString) gad_pdu_zero true in
  dec_rc (dec [] 0) = - EINVAL
  /\ dec_rc (dec [16; 32; 182; 12; 29; 221; 222] 7) = - EINVAL
  /\ dec_rc (dec [16; 32; 182; 12; 29; 221; 222; 168] 8) = - EINVAL
  /\ dec_rc (dec [16; 32; 182; 12; 29; 221; 222; 40] 8) = 0.
Proof.
  intros dec. unfold dec.
  split; [|split; [|split]].
  - destruct (dec_error_classification (fun _ => EmptyString) gad_pdu_zero
                true [] 0) as (Hempty & _).
    apply Hempty. reflexivity.
  - destruct (dec_error_classification (fun _ => EmptyString) gad_pdu_zero
                true [16; 32; 182; 12; 29; 221; 222] 7) as (_ & Hlength & _).
    apply Hlength; [lia | lia | reflexivity].
  - destruct (dec_error_classification (fun _ => EmptyString) gad_pdu_zero
                true [16; 32; 182; 12; 29; 221; 222; 168] 8)
      as (_ & _ & Hreserved & _).
    apply Hreserved; reflexivity.
  - destruct (dec_error_classification (fun _ => EmptyString) gad_pdu_zero
                true [16; 32; 182; 12; 29; 221; 222; 40] 8)
      as (_ & _ & _ & Hok).
    apply Hok; reflexivity.
Defined.

Lemma not_supported_witness :
  0 <= 2 /\ 2 <> GAD_TYPE_ELL_POINT_UNC_CIRCLE
  /\ osmo_gad_enc [] {| type := 2; u := repeat 0 31 |} = (- ENOTSUP, [])
  /\ dec_rc (osmo_gad_dec (fun _ => EmptyString) gad_pdu_zero false
               [0x20; 0; 0; 0; 0; 0; 0; 0] 8) = - ENOTSUP.
Proof.
  assert (H0 : 0 <= 2) by lia.
  assert (H1 : 2 <> GAD_TYPE_ELL_POINT_UNC_CIRCLE) by discriminate.
  destruct (not_supported (fun _ => EmptyString) 2 H0 H1) as [Henc Hdec].
  split; [exact H0|]. split; [exact H1|]. split.
  - apply Henc.
  - apply (Hdec gad_pdu_zero false [0x20; 0; 0; 0; 0; 0; 0; 0] 8);
      [lia | reflexivity].
Defined.

Lemma to_str_ell_point_prints_unc_witness :
  Z.of_nat (String.length "Ellipsoid-point{lat=1,lon=2lat=1,lon=2,unc=777mm}")
  < 128
  /\ osmo_gad_to_str_buf (fun _ => EmptyString) fmt_u 128
       (Some {| type := GAD_TYPE_ELL_POINT;
                u := [1; 2; 777] ++ repeat 0 28 |})
     = (49, "Ellipsoid-point{lat=1,lon=2lat=1,lon=2,unc=777mm}"%string).
Proof.
  split; [vm_compute; reflexivity|].
  apply (to_str_ell_point_prints_unc (fun _ => EmptyString) fmt_u 128
           ([1; 2; 777] ++ repeat 0 28)).
  vm_compute. reflexivity.
Defined.

(** The further properties at concrete inputs. *)



Lemma dec_lat_in_domain_witness :
  0 <= 0xFFFFFF <= 0xFFFFFF
  /\ - 90000000 < to_int32 (osmo_gad_dec_lat (to_int32 0xFFFFFF)) < 90000000.
Proof.
  split; [lia|]. apply (dec_lat_in_domain 0xFFFFFF). lia.
Defined.

Lemma lat_sign_symmetry_witness :
  0 <= 0x20b60c < 8388608 /\ 0 < 23000006 < 2147483648
  /\ to_int32 (osmo_gad_dec_lat (Z.lor 0x20b60c 0x800000))
     = - to_int32 (osmo_gad_dec_lat 0x20b60c)
  /\ osmo_gad_enc_lat (- 23000006)
     = Z.lor (osmo_gad_enc_lat 23000006) 0x800000.
Proof.
  split; [lia|]. split; [lia|].
  apply (lat_sign_symmetry 0x20b60c 23000006); lia.
Defined.

Lemma enc_lat_monotone_witness :
  0 <= 23000006 <= 23000017 /\ 23000017 < 90000000
  /\ osmo_gad_enc_lat 23000006 <= osmo_gad_enc_lat 23000017.
Proof.
  split; [lia|]. split; [lia|].
  apply (enc_lat_monotone 23000006 23000017); lia.
Defined.


Lemma dec_lon_in_domain_witness :
  0 <= 0x800000 <= 0xFFFFFF
  /\ - 180000000 <= to_int32 (osmo_gad_dec_lon (to_int32 0x800000)) < 180000000.
Proof.
  split; [lia|]. apply (dec_lon_in_domain 0x800000). lia.
Defined.

Lemma unc_order_preserved_witness :
  0 <= 1000 <= 442600 /\ 0 <= 1 < 40 /\ 40 <= 127
  /\ osmo_gad_enc_unc 1000 <= osmo_gad_enc_unc 442600
  /\ osmo_gad_dec_unc 1 < osmo_gad_dec_unc 40.
Proof.
  split; [lia|]. split; [lia|]. split; [lia|].
  apply (unc_order_preserved 1000 442600 1 40); lia.
Defined.

Lemma unc_clamp_rounds_down_witness :
  0 <= 450000 <= 0xFFFFFFFF
  /\ osmo_gad_dec_unc (osmo_gad_enc_unc 450000) <= 450000
  /\ osmo_gad_enc_unc (osmo_gad_dec_unc (osmo_gad_enc_unc 450000))
     = osmo_gad_enc_unc 450000.
Proof.
  split; [lia|].
  destruct (unc_clamp_rounds_down 450000 ltac:(lia)) as (Hle & Hsame & _).
  exact (conj Hle Hsame).
Defined.

Lemma dec_enc_clamps_witness :
  0 <= word 2 [23000010; 42000020; 450000] <= 0xFFFFFFFF
  /\ dec_rc
       (osmo_gad_dec (fun _ => EmptyString) gad_pdu_zero true
          (snd (osmo_gad_enc []
                  {| type := GAD_TYPE_ELL_POINT_UNC_CIRCLE;
                     u := [23000010; 42000020; 450000] |}))
          8) = 0.
Proof.
  assert (H : 0 <= word 2 [23000010; 42000020; 450000] <= 0xFFFFFFFF)
    by (cbn; lia).
  split; [exact H|].
  exact (f_equal dec_rc
           (dec_enc_clamps (fun _ => EmptyString) gad_pdu_zero true
              [23000010; 42000020; 450000] H)).
Defined.

Lemma enc_dec_canonical_witness :
  Z.shiftr 0x1f 4 = GAD_TYPE_ELL_POINT_UNC_CIRCLE
  /\ Forall is_byte [0x80; 0; 0; 0x1d; 0xdd; 0xde] /\ 0 <= 0x28 <= 127
  /\ osmo_gad_enc []
       (dec_gad (osmo_gad_dec (fun _ => EmptyString) gad_pdu_zero false
                   [0x1f; 0x80; 0; 0; 0x1d; 0xdd; 0xde; 0x28] 8))
     = (8, [0x10; 0; 0; 0; 0x1d; 0xdd; 0xde; 0x28]).
Proof.
  assert (H0 : Z.shiftr 0x1f 4 = GAD_TYPE_ELL_POINT_UNC_CIRCLE) by reflexivity.
  assert (H1 : Forall is_byte [0x80; 0; 0; 0x1d; 0xdd; 0xde])
    by (repeat constructor; unfold is_byte; lia).
  assert (H2 : 0 <= 0x28 <= 127) by lia.
  split; [exact H0|]. split; [exact H1|]. split; [exact H2|].
  exact (proj2 (enc_dec_canonical (fun _ => EmptyString) gad_pdu_zero false
                  0x1f 0x80 0 0 0x1d 0xdd 0xde 0x28 H0 H1 H2)).
Defined.

Lemma dec_success_in_domain_witness :
  Forall is_byte [0x10; 0x20; 0xb6; 0x0c; 0x1d; 0xdd; 0xde; 0x28]
  /\ dec_rc (osmo_gad_dec (fun _ => EmptyString) gad_pdu_zero false
               [0x10; 0x20; 0xb6; 0x0c; 0x1d; 0xdd; 0xde; 0x28] 8) = 0
  /\ - 90000000
     < lat (ell_point_unc_circle
              (dec_gad (osmo_gad_dec (fun _ => EmptyString) gad_pdu_zero false
                          [0x10; 0x20; 0xb6; 0x0c; 0x1d; 0xdd; 0xde; 0x28] 8)))
     < 90000000.
Proof.
  assert (H0 : Forall is_byte [0x10; 0x20; 0xb6; 0x0c; 0x1d; 0xdd; 0xde; 0x28])
    by (repeat constructor; unfold is_byte; lia).
  assert (H1 : dec_rc (osmo_gad_dec (fun _ => EmptyString) gad_pdu_zero false
                         [0x10; 0x20; 0xb6; 0x0c; 0x1d; 0xdd; 0xde; 0x28] 8)
               = 0) by reflexivity.
  split; [exact H0|]. split; [exact H1|].
  exact (proj1 (proj2 (dec_success_in_domain (fun _ => EmptyString)
                         gad_pdu_zero false _ 8 H0 H1))).
Defined.

Lemma to_str_buf_like_snprintf_witness :
  0 <= 20
  /\ (let '(ret, buf) :=
         osmo_gad_to_str_buf (fun _ => EmptyString) fmt_u 20
           (Some {| type := GAD_TYPE_POLYGON; u := repeat 0 31 |}) in
       let '(ret', text) :=
         osmo_gad_to_str_buf (fun _ => EmptyString) fmt_u (ret + 1)
           (Some {| type := GAD_TYPE_POLYGON; u := repeat 0 31 |}) in
       ret' = ret
       /\ Z.of_nat (String.length text) = ret
       /\ buf = substring 0 (Z.to_nat (20 - 1)) text
       /\ Z.of_nat (String.length buf) <= Z.max 0 (20 - 1)).
Proof.
  assert (H : 0 <= 20) by lia.
  split; [exact H|].
  exact (to_str_buf_like_snprintf (fun _ => EmptyString) fmt_u 20
           (Some {| type := GAD_TYPE_POLYGON; u := repeat 0 31 |}) H).
Defined.

Lemma to_str_circle_witness :
  Z.of_nat (String.length
              "Ellipsoid-point-with-uncertainty-circle{lat=1,lon=2,unc=777mm}")
  < 128
  /\ osmo_gad_to_str_buf (fun _ => EmptyString) fmt_u 128
       (Some {| type := GAD_TYPE_ELL_POINT_UNC_CIRCLE;
                u := [1; 2; 777] ++ repeat 0 28 |})
     = (62, "Ellipsoid-point-with-uncertainty-circle{lat=1,lon=2,unc=777mm}"%string).
Proof.
  split; [vm_compute; reflexivity|].
  apply (to_str_circle (fun _ => EmptyString) fmt_u 128
           ([1; 2; 777] ++ repeat 0 28)).
  vm_compute. reflexivity.
Defined.

Lemma to_str_not_implemented_witness :
  GAD_TYPE_POLYGON <> GAD_TYPE_ELL_POINT
  /\ GAD_TYPE_POLYGON <> GAD_TYPE_ELL_POINT_UNC_CIRCLE
  /\ Z.of_nat (String.length "Polygon{to-str-not-implemented}") < 128
  /\ osmo_gad_to_str_buf (fun _ => EmptyString) fmt_u 128
       (Some {| type := GAD_TYPE_POLYGON; u := repeat 0 31 |})
     = (31, "Polygon{to-str-not-implemented}"%string).
Proof.
  assert (H0 : GAD_TYPE_POLYGON <> GAD_TYPE_ELL_POINT) by discriminate.
  assert (H1 : GAD_TYPE_POLYGON <> GAD_TYPE_ELL_POINT_UNC_CIRCLE)
    by discriminate.
  assert (H2 : Z.of_nat (String.length "Polygon{to-str-not-implemented}") < 128)
    by (vm_compute; reflexivity).
  split; [exact H0|]. split; [exact H1|]. split; [exact H2|].
  exact (proj1 (to_str_not_implemented (fun _ => EmptyString) fmt_u 128
                  GAD_TYPE_POLYGON (repeat 0 31) (repeat 0 31) H0 H1 H2)).
Defined.
